(** * Pod entity of the CRI resource manager cache

    A shallow embedding of [pkg/cri/resource-manager/cache/pod.go]:
    the pod entity, its construction from CRI messages, annotation
    decoding, the container queries and the QoS classification, together
    with the properties proved about them. *)

From Stdlib Require Import ZArith Lia List Ascii String.
From stdpp Require Import gmap strings list fin_maps.

Local Open Scope string_scope.
Local Open Scope list_scope.
Local Open Scope Z_scope.

(** ** Kubernetes resource types

    [v1.ResourceName] is a string type.  A [resource.Quantity] is an exact
    decimal number; [Cmp] and [Add] are exact (the library moves to
    arbitrary precision when a 64-bit amount would overflow), so a
    quantity is represented by its value, an integer count of the finest
    unit the library keeps. A [v1.ResourceList] is a Go map from resource
    name to quantity; a nil map and an empty one behave alike under lookup
    and [range], the only operations used on decoded data here. *)

Definition ResourceCPU : string := "cpu".
Definition ResourceMemory : string := "memory".

Definition zeroQuantity : Z := 0.

(** [Quantity.Cmp]: -1, 0 or 1. *)
Definition Cmp (q y : Z) : Z :=
  match Z.compare q y with
  | Lt => -1
  | Eq => 0
  | Gt => 1
  end.

Record ResourceRequirements := mkResourceRequirements {
  Limits : gmap string Z;
  Requests : gmap string Z
}.

(** Modelled from the spec: the declaration of [PodResourceRequirements]
    is in another file of the package.  [Containers] maps a container id
    to its requests and limits; [InitContainers] is a mapping used as a
    membership set of container ids. *)
Record PodResourceRequirements := mkPodResourceRequirements {
  InitContainers : gmap string bool;
  Containers : gmap string ResourceRequirements
}.

(** The zero value [PodResourceRequirements{}]. *)
Definition zeroResources : PodResourceRequirements :=
  mkPodResourceRequirements ∅ ∅.

(** [v1.PodQOSClass] is a string type. *)
Definition PodQOSGuaranteed : string := "Guaranteed".
Definition PodQOSBurstable : string := "Burstable".
Definition PodQOSBestEffort : string := "BestEffort".

(** ** Errors and log records *)

Inductive NumErr :=
| ErrSyntax
| ErrRange
| ErrBase (base : Z)
| ErrBitSize (bitSize : Z).

Inductive error :=
| CacheError (format : string) (podId : string)
| NumError (func : string) (num : string) (err : NumErr)
| UnmarshalError (what : string)
| DecoderError (what : string).

(** [cacheError(format, args...)] builds the cache's typed error; the
    format and its argument are kept apart instead of being printed. *)
Definition cacheError (format : string) (podId : string) : error :=
  CacheError format podId.

Inductive LogEntry :=
| LogWarn (format : string) (podId : string)
| LogError (format : string) (key value : string) (err : error).

(** ** The cache and its containers

    Modelled from the spec: the container entity and the cache registry
    are declared in other files of the package.  A container carries its
    own id and the id of the pod owning it; the cache owns the containers,
    keyed by id, and is the logging sink of its pods. *)
Module container.
Record t := mk {
  Id : string;
  PodId : string
}.
End container.

Module cache.
Record t := mk {
  Containers : gmap string container.t;
  Log : list LogEntry
}.

Definition Warn (c : t) (format podId : string) : t :=
  mk (Containers c) (Log c ++ [LogWarn format podId]).

Definition Error (c : t) (format key value : string) (err : error) : t :=
  mk (Containers c) (Log c ++ [LogError format key value err]).
End cache.

(** ** The pod entity

    [State] is [PodState], an [int32]; [Resources] is a pointer, [None]
    being nil; [QOSClass] is empty until computed.  The back pointer
    [p.cache] is not a field here: the cache is passed to, and returned
    by, the methods that read or log to it. *)
Record pod := mkPod {
  Id : string;
  Uid : string;
  Name : string;
  Namespace : string;
  State : Z;
  Labels : gmap string string;
  Annotations : gmap string string;
  CgroupParent : string;
  Resources : option PodResourceRequirements;
  QOSClass : string
}.

Definition set_QOSClass (q : string) (p : pod) : pod :=
  mkPod (Id p) (Uid p) (Name p) (Namespace p) (State p) (Labels p)
        (Annotations p) (CgroupParent p) (Resources p) q.

Definition set_Resources (r : option PodResourceRequirements) (p : pod) : pod :=
  mkPod (Id p) (Uid p) (Name p) (Namespace p) (State p) (Labels p)
        (Annotations p) (CgroupParent p) r (QOSClass p).

Definition set_Uid (u : string) (p : pod) : pod :=
  mkPod (Id p) u (Name p) (Namespace p) (State p) (Labels p)
        (Annotations p) (CgroupParent p) (Resources p) (QOSClass p).

(** Outcome of a call that can hit a run-time panic. *)
Inductive outcome (A : Type) :=
| Done (a : A)
| Panic (what : string).
Arguments Done {A} a.
Arguments Panic {A} what.

(** [for k, v := range m { body }]: the body is run once per entry, in
    an order the language leaves open; the entries are taken in the
    order of [map_to_list].  The loops of the classification are shown
    below to give the same result in any order. *)
Definition range {V A : Type} (m : gmap string V)
    (body : A → string → V → A) (init : A) : A :=
  fold_left (λ a kv, body a kv.1 kv.2) (map_to_list m) init.

(** ** QoS classification *)

Definition isSupportedQoSComputeResource (name : string) : bool :=
  String.eqb name ResourceCPU || String.eqb name ResourceMemory.

(** Lines 265-273 and 281-289 without the set insertion: a strictly
    positive quantity is stored, or added to the entry already there. *)
Definition addPositive (list : gmap string Z) (name : string) (quantity : Z)
  : gmap string Z :=
  if Cmp quantity zeroQuantity =? 1 then
    let delta := quantity in
    match list !! name with
    | None => <[name := delta]> list
    | Some old => <[name := delta + old]> list
    end
  else list.

Definition processRequest (requests : gmap string Z) (name : string)
    (quantity : Z) : gmap string Z :=
  if negb (isSupportedQoSComputeResource name) then requests
  else addPositive requests name quantity.

Definition processLimit (st : gmap string Z * gset string) (name : string)
    (quantity : Z) : gmap string Z * gset string :=
  let '(limits, qosLimitsFound) := st in
  if negb (isSupportedQoSComputeResource name) then st
  else if Cmp quantity zeroQuantity =? 1 then
    (addPositive limits name quantity, {[ name ]} ∪ qosLimitsFound)
  else st.

(** [sets.String.HasAll]. *)
Definition HasAll (s : gset string) (items : list string) : bool :=
  forallb (λ item, bool_decide (item ∈ s)) items.

Record qosState := mkQosState {
  requests : gmap string Z;
  limits : gmap string Z;
  isGuaranteed : bool
}.

(** Body of the loop over the containers, lines 259-296. *)
Definition processContainer (st : qosState) (_ : string)
    (resources : ResourceRequirements) : qosState :=
  let requests' := range (Requests resources) processRequest (requests st) in
  let '(limits', qosLimitsFound) :=
    range (Limits resources) processLimit (limits st, ∅) in
  let isGuaranteed' :=
    if negb (HasAll qosLimitsFound [ResourceMemory; ResourceCPU]) then false
    else isGuaranteed st in
  mkQosState requests' limits' isGuaranteed'.

Definition aggregate (podResources : PodResourceRequirements) : qosState :=
  range (Containers podResources) processContainer (mkQosState ∅ ∅ true).

(** Lines 303-308: the loop leaves at the first request without an equal
    limit. *)
Fixpoint requestsMatchLimits (entries : list (string * Z))
    (limits : gmap string Z) : bool :=
  match entries with
  | [] => true
  | (name, req) :: rest =>
      match limits !! name with
      | Some lim =>
          if negb (Cmp lim req =? 0) then false
          else requestsMatchLimits rest limits
      | None => false
      end
  end.

(** Lines 297-316, on the state left by the loop over the containers. *)
Definition classify (st : qosState) : string :=
  if (size (requests st) =? 0)%nat && (size (limits st) =? 0)%nat then
    PodQOSBestEffort
  else
    let isGuaranteed' :=
      if isGuaranteed st
      then requestsMatchLimits (map_to_list (requests st)) (limits st)
      else false in
    if isGuaranteed' && (size (requests st) =? size (limits st))%nat then
      PodQOSGuaranteed
    else PodQOSBurstable.

(** [GetPodQOS] returns the class and the pod with the class stored.
    [podResources.Containers] on a nil [p.Resources] is a nil-pointer
    dereference. *)
Definition GetPodQOS (p : pod) : outcome (string * pod) :=
  if negb (String.eqb (QOSClass p) "") then Done (QOSClass p, p)
  else
    match Resources p with
    | None => Panic "invalid memory address or nil pointer dereference"
    | Some podResources =>
        let q := classify (aggregate podResources) in
        Done (q, set_QOSClass q p)
    end.

(** ** Reference quantities for the classification

    What one container contributes to an aggregate, and the aggregate of
    a pod, written as plain sums; the properties relate the maps built by
    the loops to them. *)

(** The part of an entry that the loops count: a strictly positive
    quantity, nothing otherwise. *)
Definition positivePart (o : option Z) : Z :=
  match o with
  | Some q => if 0 <? q then q else 0
  | None => 0
  end.

(** Sum of what is counted under [name] in a sequence of entries. *)
Definition entriesTotal (name : string) (entries : list (string * Z)) : Z :=
  fold_right
    (λ kv s, if String.eqb kv.1 name then positivePart (Some kv.2) + s else s)
    0 entries.

(** Sum over a sequence of containers of what each declares under
    [name] in the list picked by [sel]. *)
Definition containersTotal (sel : ResourceRequirements → gmap string Z)
    (name : string) (cs : list (string * ResourceRequirements)) : Z :=
  fold_right (λ kv s, positivePart (sel kv.2 !! name) + s) 0 cs.

Definition podTotal (sel : ResourceRequirements → gmap string Z)
    (r : PodResourceRequirements) (name : string) : Z :=
  containersTotal sel name (map_to_list (Containers r)).

(** A container has a strictly positive limit under [name]. *)
Definition hasPositiveLimit (c : ResourceRequirements) (name : string) : Prop :=
  ∃ q, Limits c !! name = Some q ∧ 0 < q.

(** The per-container completeness check, on the declared limits. *)
Definition containerComplete (c : ResourceRequirements) : bool :=
  bool_decide (0 < positivePart (Limits c !! ResourceMemory))
  && bool_decide (0 < positivePart (Limits c !! ResourceCPU)).

(** The entry an aggregate holds under [name] when [total] is the sum of
    the counted quantities. *)
Definition expectedEntry (name : string) (total : Z) : option Z :=
  if isSupportedQoSComputeResource name && (0 <? total) then Some total
  else None.

(** The aggregate of a pod as the specification describes it: for each
    of the two participating names, the sum over all containers of the
    strictly positive quantities, present only when that sum is positive. *)
Definition aggregated (sel : ResourceRequirements → gmap string Z)
    (r : PodResourceRequirements) : gmap string Z :=
  let add name (m : gmap string Z) :=
    let total := podTotal sel r name in
    if 0 <? total then <[name := total]> m else m in
  add ResourceCPU (add ResourceMemory ∅).

(** Effect on one entry of adding a non-negative amount. *)
Definition bump (o : option Z) (z : Z) : option Z :=
  if 0 <? z then Some (z + default 0 o) else o.

(** ** Sample pods *)

Definition sampleRequirements (lim req : list (string * Z))
  : ResourceRequirements :=
  mkResourceRequirements (list_to_map lim) (list_to_map req).

Definition samplePod (resources : option PodResourceRequirements)
    (qos : string) : pod :=
  mkPod "sandbox0" "" "web" "default" 0 ∅ ∅ "" resources qos.

(** One container, cpu 100m and memory 64Mi both requested and limited
    (quantities in thousandths). *)
Definition guaranteedResources : PodResourceRequirements :=
  mkPodResourceRequirements ∅
    (list_to_map
       [("c0", sampleRequirements
                 [("cpu", 100); ("memory", 67108864000)]
                 [("cpu", 100); ("memory", 67108864000)])]).

(** One container whose every declared quantity is 0. *)
Definition zeroQuantityResources : PodResourceRequirements :=
  mkPodResourceRequirements ∅
    (list_to_map
       [("c0", sampleRequirements
                 [("cpu", 0); ("memory", 0)] [("cpu", 0); ("memory", 0)])]).

(** ** Number parsing of the [strconv] package

    [GetAnnotationObject] hands integers and booleans to
    [strconv.ParseBool], [strconv.ParseInt] and [strconv.ParseUint].
    They are written out here as the Go library defines them, on bytes as
    integers, with the wrap-around of [uint64] and [int64] explicit. *)

(** Platform width of [int] and [uint]. *)
Definition IntSize : Z := 64.

Definition wrapUnsigned (bits z : Z) : Z := z mod 2 ^ bits.

Definition wrapSigned (bits z : Z) : Z :=
  (z + 2 ^ (bits - 1)) mod 2 ^ bits - 2 ^ (bits - 1).

Definition maxUint64 : Z := 2 ^ 64 - 1.

Definition byteZ (c : ascii) : Z := Z.of_N (N_of_ascii c).

(** [lower(c)] is [c | ('x' - 'X')]. *)
Definition lower (c : Z) : Z := Z.lor c 32.

Definition syntaxError (fn str : string) : error := NumError fn str ErrSyntax.
Definition rangeError (fn str : string) : error := NumError fn str ErrRange.
Definition baseError (fn str : string) (base : Z) : error :=
  NumError fn str (ErrBase base).
Definition bitSizeError (fn str : string) (bitSize : Z) : error :=
  NumError fn str (ErrBitSize bitSize).

Definition ParseBool (str : string) : bool * option error :=
  if existsb (String.eqb str) ["1"; "t"; "T"; "true"; "TRUE"; "True"]
  then (true, None)
  else if existsb (String.eqb str) ["0"; "f"; "F"; "false"; "FALSE"; "False"]
  then (false, None)
  else (false, Some (syntaxError "ParseBool" str)).

(** What [underscoreOK] remembers of the last byte: the beginning of the
    number, a digit or base prefix, an underscore, anything else. *)
Inductive sawByte := SawStart | SawDigit | SawUnderscore | SawOther.

Fixpoint underscoreScan (hex : bool) (s : string) (saw : sawByte) : bool :=
  match s with
  | EmptyString =>
      match saw with SawUnderscore => false | _ => true end
  | String ch rest =>
      let c := byteZ ch in
      if ((48 <=? c) && (c <=? 57))
         || (hex && (97 <=? lower c) && (lower c <=? 102))
      then underscoreScan hex rest SawDigit
      else if c =? 95 then
        match saw with
        | SawDigit => underscoreScan hex rest SawUnderscore
        | _ => false
        end
      else
        match saw with
        | SawUnderscore => false
        | _ => underscoreScan hex rest SawOther
        end
  end.

Definition isBasePrefix (c : Z) : bool :=
  (lower c =? 98) || (lower c =? 111) || (lower c =? 120).

Definition underscoreOK (s : string) : bool :=
  let s :=
    match s with
    | String ch rest =>
        if (byteZ ch =? 45) || (byteZ ch =? 43) then rest else s
    | EmptyString => s
    end in
  match s with
  | String c0 (String c1 rest) =>
      if (byteZ c0 =? 48) && isBasePrefix (byteZ c1)
      then underscoreScan (lower (byteZ c1) =? 120) rest SawDigit
      else underscoreScan false s SawStart
  | _ => underscoreScan false s SawStart
  end.

(** The digit arms of the switch in the loop of [ParseUint]: a decimal
    digit, a letter, or no digit at all. *)
Definition digitValue (c : Z) : option Z :=
  if (48 <=? c) && (c <=? 57) then Some (c - 48)
  else if (97 <=? lower c) && (lower c <=? 122)
       then Some (lower c - 97 + 10)
       else None.

Inductive digitsResult :=
| DigitsError (value : Z) (err : NumErr)
| DigitsDone (n : Z) (underscores : bool).

(** The digit loop of [ParseUint]. *)
Fixpoint digitsLoop (base maxVal cutoff : Z) (base0 : bool) (s : string)
    (n : Z) (underscores : bool) : digitsResult :=
  match s with
  | EmptyString => DigitsDone n underscores
  | String ch rest =>
      let c := byteZ ch in
      if (c =? 95) && base0 then
        digitsLoop base maxVal cutoff base0 rest n true
      else
        match digitValue c with
        | None => DigitsError 0 ErrSyntax
        | Some d =>
            if d >=? base then DigitsError 0 ErrSyntax
            else if n >=? cutoff then DigitsError maxVal ErrRange
            else
              let n' := wrapUnsigned 64 (n * base) in
              let n1 := wrapUnsigned 64 (n' + d) in
              if (n1 <? n') || (n1 >? maxVal) then DigitsError maxVal ErrRange
              else digitsLoop base maxVal cutoff base0 rest n1 underscores
        end
  end.

(** The base and the digits left once a prefix is read, for [base == 0]. *)
Definition detectBase (s : string) : Z * string :=
  match s with
  | String c0 tail =>
      if byteZ c0 =? 48 then
        match tail with
        | String c1 (String c2 rest') =>
            if lower (byteZ c1) =? 98 then (2, String c2 rest')
            else if lower (byteZ c1) =? 111 then (8, String c2 rest')
            else if lower (byteZ c1) =? 120 then (16, String c2 rest')
            else (8, tail)
        | _ => (8, tail)
        end
      else (10, s)
  | EmptyString => (10, s)
  end.

Definition ParseUint (s : string) (base bitSize : Z) : Z * option error :=
  let fnParseUint := "ParseUint" in
  if String.eqb s "" then (0, Some (syntaxError fnParseUint s))
  else
    let base0 := base =? 0 in
    let s0 := s in
    let prefix :=
      if (2 <=? base) && (base <=? 36) then Some (base, s)
      else if base =? 0 then Some (detectBase s)
      else None in
    match prefix with
    | None => (0, Some (baseError fnParseUint s0 base))
    | Some (base, s) =>
        if (bitSize <? 0) || (bitSize >? 64)
        then (0, Some (bitSizeError fnParseUint s0 bitSize))
        else
          let bitSize := if bitSize =? 0 then IntSize else bitSize in
          let cutoff := maxUint64 / base + 1 in
          let maxVal := wrapUnsigned 64 (wrapUnsigned 64 (2 ^ bitSize) - 1) in
          match digitsLoop base maxVal cutoff base0 s 0 false with
          | DigitsError v ErrRange => (v, Some (rangeError fnParseUint s0))
          | DigitsError v _ => (v, Some (syntaxError fnParseUint s0))
          | DigitsDone n underscores =>
              if underscores && negb (underscoreOK s0)
              then (0, Some (syntaxError fnParseUint s0))
              else (n, None)
          end
    end.

Definition ParseInt (s : string) (base bitSize : Z) : Z * option error :=
  let fnParseInt := "ParseInt" in
  if String.eqb s "" then (0, Some (syntaxError fnParseInt s))
  else
    let s0 := s in
    let '(neg, s) :=
      match s with
      | String ch rest =>
          if byteZ ch =? 43 then (false, rest)
          else if byteZ ch =? 45 then (true, rest)
          else (false, s)
      | EmptyString => (false, s)
      end in
    let '(un, err) := ParseUint s base bitSize in
    let stop :=
      match err with
      | Some (NumError _ _ ErrRange) => None
      | Some (NumError _ _ e) => Some (NumError fnParseInt s0 e)
      | Some e => Some e
      | None => None
      end in
    match stop with
    | Some e => (0, Some e)
    | None =>
        let bitSize := if bitSize =? 0 then IntSize else bitSize in
        let cutoff := wrapUnsigned 64 (2 ^ (bitSize - 1)) in
        if negb neg && (un >=? cutoff)
        then (wrapSigned 64 (cutoff - 1), Some (rangeError fnParseInt s0))
        else if neg && (un >? cutoff)
        then (wrapSigned 64 (- wrapSigned 64 cutoff),
              Some (rangeError fnParseInt s0))
        else
          let n := wrapSigned 64 un in
          let n := if neg then wrapSigned 64 (- n) else n in
          (n, None)
    end.

(** ** CRI messages

    The request and reply types of the CRI API that the constructors
    read; pointers to sub-messages are options, [None] being nil. *)
Module cri.
Module PodSandboxMetadata.
Record t := mk {
  Name : string;
  Uid : string;
  Namespace : string;
  Attempt : Z
}.
End PodSandboxMetadata.

Module LinuxPodSandboxConfig.
Record t := mk {
  CgroupParent : string
}.

(** Generated getter, safe on a nil receiver. *)
Definition GetCgroupParent (m : option t) : string :=
  match m with
  | Some l => CgroupParent l
  | None => ""
  end.
End LinuxPodSandboxConfig.

Module PodSandboxConfig.
Record t := mk {
  Metadata : option PodSandboxMetadata.t;
  Hostname : string;
  Labels : gmap string string;
  Annotations : gmap string string;
  Linux : option LinuxPodSandboxConfig.t
}.

Definition GetLinux (m : option t) : option LinuxPodSandboxConfig.t :=
  match m with
  | Some cfg => Linux cfg
  | None => None
  end.
End PodSandboxConfig.

Module RunPodSandboxRequest.
Record t := mk {
  Config : option PodSandboxConfig.t;
  RuntimeHandler : string
}.
End RunPodSandboxRequest.

Module PodSandbox.
Record t := mk {
  Id : string;
  Metadata : option PodSandboxMetadata.t;
  State : Z;
  CreatedAt : Z;
  Labels : gmap string string;
  Annotations : gmap string string
}.
End PodSandbox.
End cri.

(** Modelled from the spec: [PodState] and its constants are declared in
    another file of the package; the states mirror the runtime's own
    enumeration, in which a ready sandbox is 0. *)
Definition PodStateReady : Z := 0.
Definition PodStateNotReady : Z := 1.

(** [KeyResourceAnnotation] is the annotation key our webhook uses. *)
Definition KeyResourceAnnotation : string := "intel.com/resources".

(** [kubetypes.KubernetesPodUIDLabel]. *)
Definition KubernetesPodUIDLabel : string := "io.kubernetes.pod.uid".

(** ** Annotation decoding *)

(** The pointee of [objPtr], by its dynamic type.  The types named by
    the switch each have a constructor; [ObjResources] is the target of
    another type that this file passes, a [*PodResourceRequirements]. *)
Inductive object :=
| ObjString (v : string)
| ObjBool (v : bool)
| ObjInt (v : Z)
| ObjUint (v : Z)
| ObjInt64 (v : Z)
| ObjUint64 (v : Z)
| ObjResources (v : PodResourceRequirements).

(** A decoder writes through the pointer and returns an error or nil. *)
Definition decoder := string → object → object * option error.

Definition GetLabel (p : pod) (key : string) : string * bool :=
  match Labels p !! key with
  | Some value => (value, true)
  | None => ("", false)
  end.

Definition GetAnnotation (p : pod) (key : string) : string * bool :=
  match Annotations p !! key with
  | Some value => (value, true)
  | None => ("", false)
  end.

Definition GetPodResourceRequirements (p : pod) : PodResourceRequirements :=
  match Resources p with
  | None => zeroResources
  | Some r => r
  end.

Section Decoding.
(** [json.Unmarshal] at a [*PodResourceRequirements]: from the bytes
    and the current pointee to the pointee it leaves and its error. *)
Variable Unmarshal :
  string → PodResourceRequirements → PodResourceRequirements * option error.

(** The type switch of [GetAnnotationObject], lines 191-210. *)
Definition defaultDecode (value : string) (obj : object)
  : object * option error :=
  match obj with
  | ObjString _ => (ObjString value, None)
  | ObjBool _ =>
      let '(b, err) := ParseBool value in (ObjBool b, err)
  | ObjInt _ =>
      let '(i, err) := ParseInt value 0 0 in
      (ObjInt (wrapSigned IntSize i), err)
  | ObjUint _ =>
      let '(i, err) := ParseUint value 0 0 in
      (ObjUint (wrapUnsigned IntSize i), err)
  | ObjInt64 _ =>
      let '(i, err) := ParseInt value 0 64 in (ObjInt64 i, err)
  | ObjUint64 _ =>
      let '(i, err) := ParseUint value 0 64 in (ObjUint64 i, err)
  | ObjResources r =>
      let '(r', err) := Unmarshal value r in (ObjResources r', err)
  end.

(** Returns the cache (with what was logged), the pointee as left by
    the decoding, the presence flag and the error. *)
Definition GetAnnotationObject (c : cache.t) (p : pod) (key : string)
    (obj : object) (decode : option decoder)
  : cache.t * object * bool * option error :=
  let '(value, ok) := GetAnnotation p key in
  if negb ok then (c, obj, false, None)
  else
    match decode with
    | Some decode =>
        let '(obj', err) := decode value obj in
        (c, obj', true, err)
    | None =>
        let '(obj', err) := defaultDecode value obj in
        let c' :=
          match err with
          | Some e =>
              cache.Error c "failed to decode annotation %s (%s): %v"
                key value e
          | None => c
          end in
        (c', obj', true, err)
    end.

Definition extractLabels (c : cache.t) (p : pod) : cache.t * pod :=
  let '(uid, ok) := GetLabel p KubernetesPodUIDLabel in
  let c' :=
    if negb ok
    then cache.Warn c "can't find (k8s) uid label for pod %s" (Id p)
    else c in
  (c', set_Uid uid p).

(** [p.Resources] points to a fresh zero model, into which the
    annotation is decoded; what [GetAnnotationObject] returns is
    dropped. *)
Definition parseResourceAnnotations (c : cache.t) (p : pod)
  : cache.t * pod :=
  let p := set_Resources (Some zeroResources) p in
  let '(c', obj, _, _) :=
    GetAnnotationObject c p KeyResourceAnnotation
      (ObjResources zeroResources) None in
  match obj with
  | ObjResources r => (c', set_Resources (Some r) p)
  | _ => (c', p)
  end.

Definition fromRunRequest (c : cache.t) (p : pod)
    (req : cri.RunPodSandboxRequest.t) : cache.t * pod * option error :=
  match cri.RunPodSandboxRequest.Config req with
  | None => (c, p, Some (cacheError "pod %s has no config" (Id p)))
  | Some cfg =>
      match cri.PodSandboxConfig.Metadata cfg with
      | None =>
          (c, p, Some (cacheError "pod %s has no request metadata" (Id p)))
      | Some meta =>
          let p :=
            mkPod (Id p) (Uid p)
              (cri.PodSandboxMetadata.Name meta)
              (cri.PodSandboxMetadata.Namespace meta)
              PodStateReady
              (cri.PodSandboxConfig.Labels cfg)
              (cri.PodSandboxConfig.Annotations cfg)
              (cri.LinuxPodSandboxConfig.GetCgroupParent
                 (cri.PodSandboxConfig.GetLinux (Some cfg)))
              (Resources p) (QOSClass p) in
          let '(c, p) := parseResourceAnnotations c p in
          let '(c, p) := extractLabels c p in
          (c, p, None)
      end
  end.

Definition fromListResponse (c : cache.t) (p : pod)
    (sandbox : cri.PodSandbox.t) : cache.t * pod * option error :=
  match cri.PodSandbox.Metadata sandbox with
  | None => (c, p, Some (cacheError "pod %s has no reply metadata" (Id p)))
  | Some meta =>
      let p :=
        mkPod (Id p) (Uid p)
          (cri.PodSandboxMetadata.Name meta)
          (cri.PodSandboxMetadata.Namespace meta)
          (cri.PodSandbox.State sandbox)
          (cri.PodSandbox.Labels sandbox)
          (cri.PodSandbox.Annotations sandbox)
          (CgroupParent p)
          (Resources p) (QOSClass p) in
      let '(c, p) := parseResourceAnnotations c p in
      let '(c, p) := extractLabels c p in
      (c, p, None)
  end.
End Decoding.

(** ** Container queries

    The loops run over the cache's containers and append the ones kept;
    a nil slice and an empty one are both the empty list. *)
Definition GetInitContainers (c : cache.t) (p : pod) : list container.t :=
  match Resources p with
  | None => []
  | Some r =>
      range (cache.Containers c)
        (λ containers _ ctr,
           match InitContainers r !! container.Id ctr with
           | Some _ => containers ++ [ctr]
           | None => containers
           end)
        []
  end.

Definition GetContainers (c : cache.t) (p : pod) : list container.t :=
  range (cache.Containers c)
    (λ containers _ ctr,
       match Resources p with
       | Some r =>
           match Containers r !! container.Id ctr with
           | Some _ => containers ++ [ctr]
           | None => containers
           end
       | None => containers ++ [ctr]
       end)
    [].

(** ** A JSON decoder for the resource annotation

    [json.Unmarshal] and [resource.ParseQuantity] belong to libraries
    outside the repository.  The properties below hold for any decoder
    (the variable [Unmarshal] above); to run the constructors on actual
    annotation text, the decoder is also written out for a fragment of
    JSON, following the documented behaviour of [encoding/json]:
    - the text is checked as a whole first, and a syntax error leaves the
      target untouched;
    - an object is stored member by member, in the order of the text;
      keys match field names without regard to case, unknown keys are
      skipped;
    - a value of the wrong kind for its target is skipped, the first such
      mismatch being kept as the error to return once the rest is stored;
    - an error of a value's own [UnmarshalJSON] (here a [Quantity]) stops
      the decoding at once, what was stored so far staying in place.
    The fragment: no escape sequences in strings, ASCII keys; quantities
    are an optional sign, decimal digits and one of the suffixes m, k, M,
    G, Ki, Mi, Gi or none, valued in thousandths.  Text outside the
    fragment is rejected. *)

#[local] Set Warnings "-register-all".
Inductive json :=
| JNull
| JBool (b : bool)
| JNumber (text : string)
| JString (s : string)
| JArray (elements : list json)
| JObject (members : list (string * json)).

Definition isSpace (c : ascii) : bool :=
  let n := byteZ c in (n =? 32) || (n =? 9) || (n =? 10) || (n =? 13).

Definition isDigit (c : ascii) : bool :=
  let n := byteZ c in (48 <=? n) && (n <=? 57).

Fixpoint skipSpace (s : string) : string :=
  match s with
  | String c rest => if isSpace c then skipSpace rest else s
  | EmptyString => s
  end.

Fixpoint takeDigits (s : string) : string * string :=
  match s with
  | String c rest =>
      if isDigit c then
        let '(ds, rest') := takeDigits rest in (String c ds, rest')
      else ("", s)
  | EmptyString => ("", s)
  end.

(** The characters of a string literal up to its closing quote. *)
Fixpoint scanString (s : string) : option (string * string) :=
  match s with
  | EmptyString => None
  | String c rest =>
      if byteZ c =? 34 then Some ("", rest)
      else if (byteZ c =? 92) || (byteZ c <? 32) then None
      else
        match scanString rest with
        | Some (body, rest') => Some (String c body, rest')
        | None => None
        end
  end.

(** A number: sign, integer part, fraction, exponent. *)
Definition scanNumber (s : string) : option (string * string) :=
  let '(sign, s1) :=
    match s with
    | String c rest => if byteZ c =? 45 then ("-", rest) else ("", s)
    | EmptyString => ("", s)
    end in
  let '(int, s2) := takeDigits s1 in
  let intOk :=
    match int with
    | EmptyString => false
    | String c EmptyString => true
    | String c _ => negb (byteZ c =? 48)
    end in
  if negb intOk then None
  else
    let frac :=
      match s2 with
      | String c rest =>
          if byteZ c =? 46 then
            let '(ds, rest') := takeDigits rest in
            match ds with
            | EmptyString => None
            | _ => Some (String c ds, rest')
            end
          else Some ("", s2)
      | EmptyString => Some ("", s2)
      end in
    match frac with
    | None => None
    | Some (fracText, s3) =>
        let exp :=
          match s3 with
          | String c rest =>
              if (byteZ c =? 101) || (byteZ c =? 69) then
                let '(esign, rest1) :=
                  match rest with
                  | String c' rest' =>
                      if (byteZ c' =? 43) || (byteZ c' =? 45)
                      then (String c' "", rest') else ("", rest)
                  | EmptyString => ("", rest)
                  end in
                let '(ds, rest2) := takeDigits rest1 in
                match ds with
                | EmptyString => None
                | _ => Some (String c (esign +:+ ds), rest2)
                end
              else Some ("", s3)
          | EmptyString => Some ("", s3)
          end in
        match exp with
        | None => None
        | Some (expText, s4) => Some (sign +:+ int +:+ fracText +:+ expText, s4)
        end
    end.

Definition expectWord (word : string) (s : string) : option string :=
  if String.prefix word s
  then Some (String.substring (String.length word)
               (String.length s - String.length word) s)
  else None.

Fixpoint scanValue (fuel : nat) (s : string) : option (json * string) :=
  match fuel with
  | O => None
  | S fuel =>
      match skipSpace s with
      | EmptyString => None
      | String c rest as s' =>
          let n := byteZ c in
          if n =? 110 then
            match expectWord "null" s' with
            | Some r => Some (JNull, r) | None => None end
          else if n =? 116 then
            match expectWord "true" s' with
            | Some r => Some (JBool true, r) | None => None end
          else if n =? 102 then
            match expectWord "false" s' with
            | Some r => Some (JBool false, r) | None => None end
          else if n =? 34 then
            match scanString rest with
            | Some (body, r) => Some (JString body, r) | None => None end
          else if n =? 91 then
            match skipSpace rest with
            | String c' r =>
                if byteZ c' =? 93 then Some (JArray [], r)
                else
                  match scanElements fuel rest with
                  | Some (l, r') => Some (JArray l, r') | None => None end
            | EmptyString => None
            end
          else if n =? 123 then
            match skipSpace rest with
            | String c' r =>
                if byteZ c' =? 125 then Some (JObject [], r)
                else
                  match scanMembers fuel rest with
                  | Some (l, r') => Some (JObject l, r') | None => None end
            | EmptyString => None
            end
          else
            match scanNumber s' with
            | Some (text, r) => Some (JNumber text, r) | None => None end
      end
  end
with scanElements (fuel : nat) (s : string) : option (list json * string) :=
  match fuel with
  | O => None
  | S fuel =>
      match scanValue fuel s with
      | None => None
      | Some (v, r) =>
          match skipSpace r with
          | String c r' =>
              if byteZ c =? 93 then Some ([v], r')
              else if byteZ c =? 44 then
                match scanElements fuel r' with
                | Some (l, r'') => Some (v :: l, r'') | None => None end
              else None
          | EmptyString => None
          end
      end
  end
with scanMembers (fuel : nat) (s : string)
  : option (list (string * json) * string) :=
  match fuel with
  | O => None
  | S fuel =>
      match skipSpace s with
      | String q r0 =>
          if negb (byteZ q =? 34) then None
          else
            match scanString r0 with
            | None => None
            | Some (key, r1) =>
                match skipSpace r1 with
                | String colon r2 =>
                    if negb (byteZ colon =? 58) then None
                    else
                      match scanValue fuel r2 with
                      | None => None
                      | Some (v, r3) =>
                          match skipSpace r3 with
                          | String c r4 =>
                              if byteZ c =? 125 then Some ([(key, v)], r4)
                              else if byteZ c =? 44 then
                                match scanMembers fuel r4 with
                                | Some (l, r5) => Some ((key, v) :: l, r5)
                                | None => None
                                end
                              else None
                          | EmptyString => None
                          end
                      end
                | EmptyString => None
                end
            end
      | EmptyString => None
      end
  end.

(** The whole text is one value, white space around it allowed. *)
Definition scanJSON (data : string) : option json :=
  match scanValue (2 * String.length data + 2) data with
  | Some (v, rest) =>
      match skipSpace rest with
      | EmptyString => Some v
      | _ => None
      end
  | None => None
  end.

Definition digitsValue (ds : string) : Z :=
  fold_left (λ n c, n * 10 + (byteZ c - 48)) (list_ascii_of_string ds) 0.

Definition trimSpace (s : string) : string :=
  let front := skipSpace s in
  string_of_list_ascii
    (rev (list_ascii_of_string
            (skipSpace (string_of_list_ascii
                          (rev (list_ascii_of_string front)))))).

(** Thousandths per unit of each suffix of the fragment. *)
Definition suffixScale (suffix : string) : option Z :=
  if String.eqb suffix "" then Some 1000
  else if String.eqb suffix "m" then Some 1
  else if String.eqb suffix "k" then Some (1000 * 10 ^ 3)
  else if String.eqb suffix "M" then Some (1000 * 10 ^ 6)
  else if String.eqb suffix "G" then Some (1000 * 10 ^ 9)
  else if String.eqb suffix "Ki" then Some (1000 * 2 ^ 10)
  else if String.eqb suffix "Mi" then Some (1000 * 2 ^ 20)
  else if String.eqb suffix "Gi" then Some (1000 * 2 ^ 30)
  else None.

Definition ParseQuantity (str : string) : option Z :=
  let '(neg, body) :=
    match str with
    | String c rest =>
        if byteZ c =? 45 then (true, rest)
        else if byteZ c =? 43 then (false, rest)
        else (false, str)
    | EmptyString => (false, str)
    end in
  let '(ds, suffix) := takeDigits body in
  match ds with
  | EmptyString => None
  | _ =>
      match suffixScale suffix with
      | Some scale =>
          let v := digitsValue ds * scale in
          Some (if neg then - v else v)
      | None => None
      end
  end.

(** [Quantity.UnmarshalJSON] on the text of a value: [null] is the zero
    quantity, quotes are dropped, the rest goes to [ParseQuantity]. *)
Definition unmarshalQuantity (j : json) : option Z :=
  match j with
  | JNull => Some 0
  | JString s => ParseQuantity (trimSpace s)
  | JNumber text => ParseQuantity text
  | _ => None
  end.

Definition toLowerASCII (s : string) : string :=
  string_of_list_ascii
    (map (λ c, let n := byteZ c in
               if (65 <=? n) && (n <=? 90)
               then ascii_of_N (Z.to_N (n + 32)) else c)
         (list_ascii_of_string s)).

Definition equalFold (a b : string) : bool :=
  String.eqb (toLowerASCII a) (toLowerASCII b).

(** What a store leaves: the target, and either the first kind mismatch
    saved so far or the error that stopped the decoding. *)
Inductive stored (A : Type) :=
| Stored (a : A) (saved : option error)
| Stopped (a : A) (err : error).
Arguments Stored {A} a saved.
Arguments Stopped {A} a err.

Definition saveError (saved : option error) (what : string) : option error :=
  match saved with
  | Some e => Some e
  | None => Some (UnmarshalError what)
  end.

(** A [v1.ResourceList]; an entry whose quantity fails to parse stops
    the decoding before it is written. *)
Fixpoint storeQuantities (members : list (string * json))
    (m : gmap string Z) (saved : option error) : stored (gmap string Z) :=
  match members with
  | [] => Stored m saved
  | (k, v) :: rest =>
      match unmarshalQuantity v with
      | Some q => storeQuantities rest (<[k := q]> m) saved
      | None => Stopped m (UnmarshalError "quantity")
      end
  end.

Definition storeResourceList (j : json) (m : gmap string Z)
    (saved : option error) : stored (gmap string Z) :=
  match j with
  | JNull => Stored ∅ saved
  | JObject members => storeQuantities members m saved
  | _ => Stored m (saveError saved "ResourceList")
  end.

(** The fields of a [v1.ResourceRequirements], written in place. *)
Fixpoint storeRequirementFields (members : list (string * json))
    (r : ResourceRequirements) (saved : option error)
  : stored ResourceRequirements :=
  match members with
  | [] => Stored r saved
  | (k, v) :: rest =>
      if equalFold k "Limits" then
        match storeResourceList v (Limits r) saved with
        | Stored m saved' =>
            storeRequirementFields rest
              (mkResourceRequirements m (Requests r)) saved'
        | Stopped m e => Stopped (mkResourceRequirements m (Requests r)) e
        end
      else if equalFold k "Requests" then
        match storeResourceList v (Requests r) saved with
        | Stored m saved' =>
            storeRequirementFields rest
              (mkResourceRequirements (Limits r) m) saved'
        | Stopped m e => Stopped (mkResourceRequirements (Limits r) m) e
        end
      else storeRequirementFields rest r saved
  end.

Definition storeRequirements (j : json) (r : ResourceRequirements)
    (saved : option error) : stored ResourceRequirements :=
  match j with
  | JNull => Stored r saved
  | JObject members => storeRequirementFields members r saved
  | _ => Stored r (saveError saved "ResourceRequirements")
  end.

(** The [Containers] map: each element is decoded into a fresh zero
    value and written to the map afterwards, so an element whose decoding
    is stopped is not written. *)
Fixpoint storeContainerEntries (members : list (string * json))
    (m : gmap string ResourceRequirements) (saved : option error)
  : stored (gmap string ResourceRequirements) :=
  match members with
  | [] => Stored m saved
  | (k, v) :: rest =>
      match storeRequirements v (mkResourceRequirements ∅ ∅) saved with
      | Stored r saved' => storeContainerEntries rest (<[k := r]> m) saved'
      | Stopped _ e => Stopped m e
      end
  end.

Definition storeContainers (j : json) (m : gmap string ResourceRequirements)
    (saved : option error) : stored (gmap string ResourceRequirements) :=
  match j with
  | JNull => Stored ∅ saved
  | JObject members => storeContainerEntries members m saved
  | _ => Stored m (saveError saved "Containers")
  end.

(** The [InitContainers] map, its elements plain booleans. *)
Fixpoint storeInitEntries (members : list (string * json))
    (m : gmap string bool) (saved : option error)
  : gmap string bool * option error :=
  match members with
  | [] => (m, saved)
  | (k, v) :: rest =>
      match v with
      | JBool b => storeInitEntries rest (<[k := b]> m) saved
      | JNull => storeInitEntries rest (<[k := false]> m) saved
      | _ =>
          storeInitEntries rest (<[k := false]> m)
            (saveError saved "InitContainers element")
      end
  end.

Definition storeInitContainers (j : json) (m : gmap string bool)
    (saved : option error) : gmap string bool * option error :=
  match j with
  | JNull => (∅, saved)
  | JObject members => storeInitEntries members m saved
  | _ => (m, saveError saved "InitContainers")
  end.

Fixpoint storeModelFields (members : list (string * json))
    (r : PodResourceRequirements) (saved : option error)
  : stored PodResourceRequirements :=
  match members with
  | [] => Stored r saved
  | (k, v) :: rest =>
      if equalFold k "InitContainers" then
        let '(m, saved') := storeInitContainers v (InitContainers r) saved in
        storeModelFields rest (mkPodResourceRequirements m (Containers r))
          saved'
      else if equalFold k "Containers" then
        match storeContainers v (Containers r) saved with
        | Stored m saved' =>
            storeModelFields rest
              (mkPodResourceRequirements (InitContainers r) m) saved'
        | Stopped m e =>
            Stopped (mkPodResourceRequirements (InitContainers r) m) e
        end
      else storeModelFields rest r saved
  end.

Definition jsonUnmarshal (data : string) (r : PodResourceRequirements)
  : PodResourceRequirements * option error :=
  match scanJSON data with
  | None => (r, Some (UnmarshalError "syntax"))
  | Some JNull => (r, None)
  | Some (JObject members) =>
      match storeModelFields members r None with
      | Stored r' saved => (r', saved)
      | Stopped r' e => (r', Some e)
      end
  | Some _ => (r, Some (UnmarshalError "PodResourceRequirements"))
  end.

(** ** Sample cache, messages and annotations *)

Definition sampleCache : cache.t :=
  cache.mk
    (list_to_map
       [("c0", container.mk "c0" "sandbox0");
        ("c1", container.mk "c1" "sandbox1")])
    [].

(** A string literal of JSON text. *)
Definition quoted (s : string) : string :=
  String (ascii_of_N 34) (s +:+ String (ascii_of_N 34) "").

(** An annotation whose [Containers] member is well formed and whose
    [InitContainers] member is a number. *)
Definition halfValidAnnotation : string :=
  "{" +:+ quoted "Containers" +:+ ":{" +:+ quoted "c0" +:+ ":{}},"
  +:+ quoted "InitContainers" +:+ ":5}".

(** An annotation declaring one container with equal requests and
    limits. *)
Definition guaranteedAnnotation : string :=
  "{" +:+ quoted "Containers" +:+ ":{" +:+ quoted "c0" +:+ ":{"
  +:+ quoted "Requests" +:+ ":{" +:+ quoted "cpu" +:+ ":" +:+ quoted "100m"
  +:+ "," +:+ quoted "memory" +:+ ":" +:+ quoted "64Mi" +:+ "},"
  +:+ quoted "Limits" +:+ ":{" +:+ quoted "cpu" +:+ ":" +:+ quoted "100m"
  +:+ "," +:+ quoted "memory" +:+ ":" +:+ quoted "64Mi" +:+ "}}}}".

Definition sampleMetadata : cri.PodSandboxMetadata.t :=
  cri.PodSandboxMetadata.mk "web" "1234-abcd" "default" 0.

Definition sampleRequest (annotations : gmap string string)
  : cri.RunPodSandboxRequest.t :=
  cri.RunPodSandboxRequest.mk
    (Some (cri.PodSandboxConfig.mk (Some sampleMetadata) "web-host"
             {[ KubernetesPodUIDLabel := "1234-abcd" ]} annotations
             (Some (cri.LinuxPodSandboxConfig.mk "/kubepods/pod1234"))))
    "".

Definition sampleSandbox (state : Z) (annotations : gmap string string)
  : cri.PodSandbox.t :=
  cri.PodSandbox.mk "sandbox0" (Some sampleMetadata) state 0
    {[ KubernetesPodUIDLabel := "1234-abcd" ]} annotations.

(** A pod entity as the cache creates it before construction: only the
    id is set. *)
Definition newPod (id : string) : pod :=
  mkPod id "" "" "" 0 ∅ ∅ "" None "".

(** ** The stages of construction

    The pod as the assignments of each constructor leave it, before the
    annotation is parsed and the labels are read; and the two calls that
    end both constructors. *)
Definition runRequestPod (p : pod) (cfg : cri.PodSandboxConfig.t)
    (meta : cri.PodSandboxMetadata.t) : pod :=
  mkPod (Id p) (Uid p)
    (cri.PodSandboxMetadata.Name meta)
    (cri.PodSandboxMetadata.Namespace meta)
    PodStateReady
    (cri.PodSandboxConfig.Labels cfg)
    (cri.PodSandboxConfig.Annotations cfg)
    (cri.LinuxPodSandboxConfig.GetCgroupParent
       (cri.PodSandboxConfig.Linux cfg))
    (Resources p) (QOSClass p).

Definition listResponsePod (p : pod) (sandbox : cri.PodSandbox.t)
    (meta : cri.PodSandboxMetadata.t) : pod :=
  mkPod (Id p) (Uid p)
    (cri.PodSandboxMetadata.Name meta)
    (cri.PodSandboxMetadata.Namespace meta)
    (cri.PodSandbox.State sandbox)
    (cri.PodSandbox.Labels sandbox)
    (cri.PodSandbox.Annotations sandbox)
    (CgroupParent p)
    (Resources p) (QOSClass p).

Definition finishConstruction
    (Unmarshal : string → PodResourceRequirements →
                 PodResourceRequirements * option error)
    (c : cache.t) (p : pod) : cache.t * pod :=
  extractLabels (parseResourceAnnotations Unmarshal c p).1
    (parseResourceAnnotations Unmarshal c p).2.

(** The required protocol fields of each message. *)
Definition runRequestComplete (req : cri.RunPodSandboxRequest.t) : Prop :=
  ∃ cfg meta,
    cri.RunPodSandboxRequest.Config req = Some cfg
    ∧ cri.PodSandboxConfig.Metadata cfg = Some meta.

Definition runRequestIncomplete (req : cri.RunPodSandboxRequest.t) : Prop :=
  cri.RunPodSandboxRequest.Config req = None
  ∨ ∃ cfg, cri.RunPodSandboxRequest.Config req = Some cfg
      ∧ cri.PodSandboxConfig.Metadata cfg = None.

(** The filters of the container queries on a pod with a resource
    model: the containers of the cache whose id is a key of the given
    map, in the order the loop meets them. *)
Definition containersIn {V : Type} (ids : gmap string V) (c : cache.t)
  : list container.t :=
  filter (λ ctr, is_Some (ids !! container.Id ctr))
    (map_to_list (cache.Containers c)).*2.

(** A pod carrying the half-valid annotation. *)
Definition halfValidPod : pod :=
  mkPod "sandbox0" "" "web" "default" 0 ∅
    {[ KeyResourceAnnotation := halfValidAnnotation ]} "" None "".

(** ** String forms of values

    Modelled from the spec: the encoding of a value into its string form
    is not code of this file.  A string is its own form; a boolean is
    written as [strconv.FormatBool] does; an integer is written in
    decimal as [strconv.FormatInt] and [strconv.FormatUint] do, or in
    hexadecimal with the sign first and the prefix 0x before the digits. *)

Definition digitChar (d : Z) : ascii :=
  ascii_of_N (Z.to_N (if d <? 10 then 48 + d else 87 + d)).

(** Digits of [n], the most significant first, before [acc]; 64 rounds
    cover every 64-bit value in any base. *)
Fixpoint formatBits (fuel : nat) (base n : Z) (acc : string) : string :=
  match fuel with
  | O => acc
  | S fuel =>
      let acc' := String (digitChar (n mod base)) acc in
      if n / base =? 0 then acc' else formatBits fuel base (n / base) acc'
  end.

Definition FormatUint (n base : Z) : string := formatBits 64 base n "".

Definition FormatInt (i base : Z) : string :=
  if i <? 0 then String "-" (FormatUint (- i) base) else FormatUint i base.

Definition FormatBool (b : bool) : string :=
  if b then "true" else "false".

Definition hexUint (n : Z) : string :=
  String "0" (String "x" (FormatUint n 16)).

Definition hexInt (i : Z) : string :=
  if i <? 0 then String "-" (hexUint (- i)) else hexUint i.

(** A value of one of the six types with a built-in decoder. *)
Inductive value :=
| VString (s : string)
| VBool (b : bool)
| VInt (i : Z)
| VUint (u : Z)
| VInt64 (i : Z)
| VUint64 (u : Z).

(** The value lies in the range of its type. *)
Definition representable (v : value) : Prop :=
  match v with
  | VString _ | VBool _ => True
  | VInt i => - 2 ^ (IntSize - 1) ≤ i < 2 ^ (IntSize - 1)
  | VUint u => 0 ≤ u < 2 ^ IntSize
  | VInt64 i => - 2 ^ 63 ≤ i < 2 ^ 63
  | VUint64 u => 0 ≤ u < 2 ^ 64
  end.

Inductive notation := Decimal | Hexadecimal.

Definition encode (f : notation) (v : value) : string :=
  match v with
  | VString s => s
  | VBool b => FormatBool b
  | VInt i | VInt64 i =>
      match f with
      | Decimal => FormatInt i 10
      | Hexadecimal => hexInt i
      end
  | VUint u | VUint64 u =>
      match f with
      | Decimal => FormatUint u 10
      | Hexadecimal => hexUint u
      end
  end.

(** The target holding [v], and the targets of the type of [v]. *)
Definition objectOf (v : value) : object :=
  match v with
  | VString s => ObjString s
  | VBool b => ObjBool b
  | VInt i => ObjInt i
  | VUint u => ObjUint u
  | VInt64 i => ObjInt64 i
  | VUint64 u => ObjUint64 u
  end.

Definition targetFor (v : value) (target : object) : Prop :=
  match v, target with
  | VString _, ObjString _
  | VBool _, ObjBool _
  | VInt _, ObjInt _
  | VUint _, ObjUint _
  | VInt64 _, ObjInt64 _
  | VUint64 _, ObjUint64 _ => True
  | _, _ => False
  end.

(** The class a call returned, if it returned. *)
Definition classReturned (o : outcome (string * pod)) : option string :=
  match o with
  | Done (q, _) => Some q
  | Panic _ => None
  end.

(** A pod built from a run request carrying the given annotations. *)
Definition constructedPod (annotations : gmap string string) : pod :=
  (fromRunRequest jsonUnmarshal sampleCache (newPod "sandbox0")
     (sampleRequest annotations)).1.2.

(** ** Field accessors and key listings *)

Definition GetId (p : pod) : string := Id p.
Definition GetUid (p : pod) : string := Uid p.
Definition GetName (p : pod) : string := Name p.
Definition GetNamespace (p : pod) : string := Namespace p.
Definition GetState (p : pod) : Z := State p.
Definition GetCgroupParentDir (p : pod) : string := CgroupParent p.

(** [keys[idx] = key; idx++], the body of the loops of [GetLabelKeys] and
    [GetAnnotationKeys]; an index outside the slice is a run-time
    panic. *)
Definition storeKey {V : Type} (st : outcome (list string * nat))
    (key : string) (_ : V) : outcome (list string * nat) :=
  match st with
  | Done (keys, idx) =>
      if (idx <? length keys)%nat then Done (<[idx := key]> keys, S idx)
      else Panic "index out of range"
  | Panic what => Panic what
  end.

(** [keys := make([]string, len(m))], then the loop over the map. *)
Definition listKeys {V : Type} (m : gmap string V) : outcome (list string) :=
  match range m storeKey (Done (replicate (size m) "", 0%nat)) with
  | Done (keys, _) => Done keys
  | Panic what => Panic what
  end.

Definition GetLabelKeys (p : pod) : outcome (list string) :=
  listKeys (Labels p).

Definition GetAnnotationKeys (p : pod) : outcome (list string) :=
  listKeys (Annotations p).

(** The values a target can hold when a built-in decoder reports an
    error: what the [strconv] parsers return beside one. *)
Definition fallbackTargets (target : object) : list object :=
  match target with
  | ObjString _ => []
  | ObjBool _ => [ObjBool false]
  | ObjInt _ => [ObjInt 0; ObjInt (2 ^ 63 - 1); ObjInt (- 2 ^ 63)]
  | ObjUint _ => [ObjUint 0; ObjUint (2 ^ 64 - 1)]
  | ObjInt64 _ => [ObjInt64 0; ObjInt64 (2 ^ 63 - 1); ObjInt64 (- 2 ^ 63)]
  | ObjUint64 _ => [ObjUint64 0; ObjUint64 (2 ^ 64 - 1)]
  | ObjResources _ => []
  end.

Definition isScalarTarget (target : object) : bool :=
  match target with
  | ObjResources _ => false
  | _ => true
  end.

(** A decoder that stores a fixed value and fails. *)
Definition failingDecoder : decoder :=
  λ _ _, (ObjString "partial", Some (DecoderError "refused")).

(** A pod carrying one annotation. *)
Definition annotatedPod (key value : string) : pod :=
  mkPod "sandbox0" "" "web" "default" 0 ∅ {[ key := value ]} "" None "".

(** ** What construction leaves

    The pod once the two closing calls of a constructor have run, and
    the records they append to the log of the cache. *)
Definition decodedResources
    (Unmarshal : string → PodResourceRequirements →
                 PodResourceRequirements * option error)
    (annotations : gmap string string) : PodResourceRequirements :=
  match annotations !! KeyResourceAnnotation with
  | Some value => (Unmarshal value zeroResources).1
  | None => zeroResources
  end.

Definition finishedPod
    (Unmarshal : string → PodResourceRequirements →
                 PodResourceRequirements * option error)
    (p : pod) : pod :=
  mkPod (Id p) (default "" (Labels p !! KubernetesPodUIDLabel))
    (Name p) (Namespace p) (State p) (Labels p) (Annotations p)
    (CgroupParent p) (Some (decodedResources Unmarshal (Annotations p)))
    (QOSClass p).

Definition constructionLog
    (Unmarshal : string → PodResourceRequirements →
                 PodResourceRequirements * option error)
    (p : pod) : list LogEntry :=
  match Annotations p !! KeyResourceAnnotation with
  | Some value =>
      match (Unmarshal value zeroResources).2 with
      | Some e =>
          [LogError "failed to decode annotation %s (%s): %v"
             KeyResourceAnnotation value e]
      | None => []
      end
  | None => []
  end
  ++ match Labels p !! KubernetesPodUIDLabel with
     | Some _ => []
     | None => [LogWarn "can't find (k8s) uid label for pod %s" (Id p)]
     end.

(** A run request without labels, annotations or Linux section. *)
Definition bareRequest : cri.RunPodSandboxRequest.t :=
  cri.RunPodSandboxRequest.mk
    (Some (cri.PodSandboxConfig.mk (Some sampleMetadata) "" ∅ ∅ None)) "".

(** ** More sample resource models *)

(** Two containers, the second with a cpu limit only. *)
Definition mixedResources : PodResourceRequirements :=
  mkPodResourceRequirements {[ "init0" := true ]}
    (list_to_map
       [("c0", sampleRequirements
                 [("cpu", 100); ("memory", 64000)]
                 [("cpu", 100); ("memory", 64000)]);
        ("c1", sampleRequirements [("cpu", 250)] [("cpu", 50)])]).

(** One container with limits and no requests. *)
Definition limitsOnlyResources : PodResourceRequirements :=
  mkPodResourceRequirements ∅
    (list_to_map
       [("c0", sampleRequirements [("cpu", 100); ("memory", 64000)] [])]).

(** A container with a limit added for a resource that takes no part in
    the classification. *)
Definition withHugepages (c : ResourceRequirements) : ResourceRequirements :=
  mkResourceRequirements (<[ "hugepages-2Mi" := 4000 ]> (Limits c))
    (Requests c).

(** * Properties *)

(** ** Quantities and maps *)

Lemma Cmp_gt q : (Cmp q zeroQuantity =? 1) = (0 <? q).
Proof.
  unfold Cmp, zeroQuantity.
  destruct (Z.compare_spec q 0); destruct (Z.ltb_spec 0 q); simpl; lia.
Qed.

Lemma Cmp_eq a b : (Cmp a b =? 0) = true ↔ a = b.
Proof.
  unfold Cmp. destruct (Z.compare_spec a b); simpl; split; intros; lia.
Qed.

Lemma positivePart_nonneg o : 0 ≤ positivePart o.
Proof.
  destruct o as [q|]; simpl; [|lia]. destruct (Z.ltb_spec 0 q); lia.
Qed.

Lemma positivePart_pos o : 0 < positivePart o ↔ ∃ q, o = Some q ∧ 0 < q.
Proof.
  destruct o as [q|]; simpl.
  - destruct (Z.ltb_spec 0 q); split.
    + intros _. exists q. done.
    + done.
    + lia.
    + intros (q' & [= ->] & ?). lia.
  - split; [lia|]. intros (q & ? & _). done.
Qed.

Lemma entriesTotal_nonneg name l : 0 ≤ entriesTotal name l.
Proof.
  induction l as [|[k v] l IH]; simpl; [lia|].
  pose proof (positivePart_nonneg (Some v)). simpl in *.
  destruct (String.eqb k name); lia.
Qed.

Lemma containersTotal_nonneg sel name cs : 0 ≤ containersTotal sel name cs.
Proof.
  induction cs as [|[k c] cs IH]; simpl; [lia|].
  pose proof (positivePart_nonneg (sel c !! name)). lia.
Qed.

Lemma bump_0 o : bump o 0 = o.
Proof. done. Qed.

Lemma bump_bump o a b : 0 ≤ a → 0 ≤ b → bump (bump o a) b = bump o (a + b).
Proof.
  intros Ha Hb. unfold bump.
  destruct (Z.ltb_spec 0 a), (Z.ltb_spec 0 b), (Z.ltb_spec 0 (a + b));
    simpl; try lia; try done; f_equal; lia.
Qed.

Lemma bump_None_expected name z :
  0 ≤ z →
  bump None (if isSupportedQoSComputeResource name then z else 0)
  = expectedEntry name z.
Proof.
  intros Hz. unfold bump, expectedEntry.
  destruct (isSupportedQoSComputeResource name); simpl; [|done].
  destruct (Z.ltb_spec 0 z); simpl; [f_equal; lia|done].
Qed.

(** ** The loops of the classification *)

Lemma addPositive_lookup acc name q n :
  addPositive acc name q !! n
  = bump (acc !! n) (if String.eqb name n then positivePart (Some q) else 0).
Proof.
  unfold addPositive. rewrite Cmp_gt. simpl.
  destruct (String.eqb_spec name n) as [->|Hne].
  - unfold bump. destruct (Z.ltb_spec 0 q) as [Hq|Hq].
    + assert ((0 <? q) = true) as -> by lia.
      destruct (acc !! n) eqn:E; rewrite lookup_insert_eq; simpl;
        f_equal; lia.
    + done.
  - rewrite bump_0. destruct (0 <? q); [|done].
    destruct (acc !! name); rewrite lookup_insert_ne; done.
Qed.

Lemma isSupported_spec name :
  isSupportedQoSComputeResource name = true
  ↔ name = ResourceCPU ∨ name = ResourceMemory.
Proof.
  unfold isSupportedQoSComputeResource.
  rewrite orb_true_iff, !String.eqb_eq. done.
Qed.

Lemma processRequest_lookup acc name q n :
  processRequest acc name q !! n
  = bump (acc !! n)
      (if isSupportedQoSComputeResource n
       then (if String.eqb name n then positivePart (Some q) else 0) else 0).
Proof.
  unfold processRequest.
  destruct (isSupportedQoSComputeResource name) eqn:Es; simpl.
  - rewrite addPositive_lookup.
    destruct (String.eqb_spec name n) as [->|Hne].
    + by rewrite Es.
    + destruct (isSupportedQoSComputeResource n); done.
  - destruct (String.eqb_spec name n) as [->|Hne].
    + by rewrite Es.
    + destruct (isSupportedQoSComputeResource n); done.
Qed.

(** The request loop of one container, run over any sequence of entries. *)
Lemma requests_loop_lookup l acc n :
  fold_left (λ a kv, processRequest a kv.1 kv.2) l acc !! n
  = bump (acc !! n)
      (if isSupportedQoSComputeResource n then entriesTotal n l else 0).
Proof.
  revert acc. induction l as [|[k v] l IH]; intros acc; simpl.
  - destruct (isSupportedQoSComputeResource n); done.
  - rewrite IH, processRequest_lookup. simpl.
    pose proof (entriesTotal_nonneg n l).
    pose proof (positivePart_nonneg (Some v)). simpl in *.
    destruct (isSupportedQoSComputeResource n); [|done].
    destruct (String.eqb k n); rewrite bump_bump; try lia; done.
Qed.

Lemma entriesTotal_absent n (l : list (string * Z)) :
  n ∉ l.*1 → entriesTotal n l = 0.
Proof.
  induction l as [|[k v] l IH]; simpl; [done|].
  rewrite not_elem_of_cons. intros [Hne Hnot].
  destruct (String.eqb_spec k n); [congruence|]. by apply IH.
Qed.

Lemma entriesTotal_NoDup n q (l : list (string * Z)) :
  NoDup l.*1 → (n, q) ∈ l → entriesTotal n l = positivePart (Some q).
Proof.
  induction l as [|[k v] l IH]; simpl.
  - intros _ Hin. by apply elem_of_nil in Hin.
  - rewrite NoDup_cons, elem_of_cons. intros [Hk Hnd] [Heq|Hin].
    + injection Heq as <- <-. rewrite String.eqb_refl.
      rewrite (entriesTotal_absent n l Hk). simpl. lia.
    + destruct (String.eqb_spec k n) as [->|Hne].
      * exfalso. apply Hk. apply list_elem_of_fmap. by exists (n, q).
      * by apply IH.
Qed.

(** Over the entries of a map, each name occurs once: the total under a
    name is the counted part of its entry. *)
Lemma entriesTotal_map (m : gmap string Z) n :
  entriesTotal n (map_to_list m) = positivePart (m !! n).
Proof.
  destruct (m !! n) as [q|] eqn:E.
  - apply entriesTotal_NoDup.
    + apply NoDup_fst_map_to_list.
    + by apply elem_of_map_to_list.
  - apply entriesTotal_absent. intros Hin.
    apply list_elem_of_fmap in Hin as ([k v] & -> & Hin).
    apply elem_of_map_to_list in Hin. simpl in E. congruence.
Qed.

Lemma range_requests_lookup (m acc : gmap string Z) n :
  range m processRequest acc !! n
  = bump (acc !! n)
      (if isSupportedQoSComputeResource n then positivePart (m !! n) else 0).
Proof. unfold range. by rewrite requests_loop_lookup, entriesTotal_map. Qed.

Lemma processLimit_fst st name q :
  (processLimit st name q).1 = processRequest st.1 name q.
Proof.
  destruct st as [lim found]. unfold processLimit, processRequest. simpl.
  destruct (isSupportedQoSComputeResource name); simpl; [|done].
  unfold addPositive. destruct (Cmp q zeroQuantity =? 1); done.
Qed.

Lemma processLimit_snd st name q n :
  n ∈ (processLimit st name q).2
  ↔ n ∈ st.2
    ∨ (isSupportedQoSComputeResource n = true ∧ name = n ∧ 0 < q).
Proof.
  destruct st as [lim found]. unfold processLimit. simpl.
  destruct (isSupportedQoSComputeResource name) eqn:Es; simpl.
  - rewrite Cmp_gt. destruct (Z.ltb_spec 0 q); simpl.
    + rewrite elem_of_union, elem_of_singleton. split.
      * intros [->|?]; [right|left]; done.
      * intros [?|(_ & -> & _)]; [right|left]; done.
    + split; [by left|]. intros [?|(_ & _ & ?)]; [done|lia].
  - split; [by left|]. intros [?|(Hn & -> & _)]; [done|congruence].
Qed.

(** The limit loop of one container, run over any sequence of entries:
    the limits are aggregated as the requests are, and the set holds the
    participating names seen with a strictly positive quantity. *)
Lemma limits_loop_fst l st :
  (fold_left (λ a kv, processLimit a kv.1 kv.2) l st).1
  = fold_left (λ a kv, processRequest a kv.1 kv.2) l st.1.
Proof.
  revert st. induction l as [|[k v] l IH]; intros st; simpl; [done|].
  by rewrite IH, processLimit_fst.
Qed.

Lemma limits_loop_snd l st n :
  n ∈ (fold_left (λ a kv, processLimit a kv.1 kv.2) l st).2
  ↔ n ∈ st.2
    ∨ (isSupportedQoSComputeResource n = true ∧ ∃ q, (n, q) ∈ l ∧ 0 < q).
Proof.
  revert st. induction l as [|[k v] l IH]; intros st; simpl.
  - split; [by left|]. intros [?|(_ & q & Hin & _)]; [done|].
    by apply elem_of_nil in Hin.
  - rewrite IH, processLimit_snd. simpl. split.
    + intros [[?|(Hs & -> & Hq)]|(Hs & q & Hin & Hq)].
      * by left.
      * right. split; [done|]. exists v. split; [apply elem_of_cons; by left|done].
      * right. split; [done|]. exists q. split; [apply elem_of_cons; by right|done].
    + intros [?|(Hs & q & Hin & Hq)]; [by left; left|].
      apply elem_of_cons in Hin as [[= <- <-]|Hin].
      * left. right. done.
      * right. split; [done|]. by exists q.
Qed.

Lemma range_limits_found (m lim : gmap string Z) n :
  n ∈ (range m processLimit (lim, ∅)).2
  ↔ isSupportedQoSComputeResource n = true ∧ ∃ q, m !! n = Some q ∧ 0 < q.
Proof.
  unfold range. rewrite limits_loop_snd. simpl. split.
  - intros [Hin|(Hs & q & Hin & Hq)]; [by apply not_elem_of_empty in Hin|].
    split; [done|]. exists q. by rewrite <- elem_of_map_to_list.
  - intros (Hs & q & Hin & Hq). right. split; [done|].
    exists q. by rewrite elem_of_map_to_list.
Qed.

Lemma range_limits_lookup (m lim : gmap string Z) n :
  (range m processLimit (lim, ∅)).1 !! n
  = bump (lim !! n)
      (if isSupportedQoSComputeResource n then positivePart (m !! n) else 0).
Proof.
  unfold range. rewrite limits_loop_fst. simpl.
  by rewrite requests_loop_lookup, entriesTotal_map.
Qed.

Lemma containerComplete_spec c :
  containerComplete c = true
  ↔ hasPositiveLimit c ResourceCPU ∧ hasPositiveLimit c ResourceMemory.
Proof.
  unfold containerComplete, hasPositiveLimit.
  rewrite andb_true_iff, !bool_decide_eq_true, !positivePart_pos. tauto.
Qed.

Lemma HasAll_found (m lim : gmap string Z) c :
  Limits c = m →
  HasAll (range m processLimit (lim, ∅)).2 [ResourceMemory; ResourceCPU]
  = containerComplete c.
Proof.
  intros <-. apply eq_true_iff_eq. unfold HasAll, containerComplete. simpl.
  rewrite andb_true_r, !andb_true_iff, !bool_decide_eq_true.
  rewrite !range_limits_found, !positivePart_pos.
  assert (isSupportedQoSComputeResource ResourceMemory = true) as -> by done.
  assert (isSupportedQoSComputeResource ResourceCPU = true) as -> by done.
  tauto.
Qed.

Lemma processContainer_requests st id c n :
  requests (processContainer st id c) !! n
  = bump (requests st !! n)
      (if isSupportedQoSComputeResource n
       then positivePart (Requests c !! n) else 0).
Proof.
  unfold processContainer.
  destruct (range (Limits c) processLimit (limits st, ∅)) as [lim found].
  simpl. apply range_requests_lookup.
Qed.

Lemma processContainer_limits st id c n :
  limits (processContainer st id c) !! n
  = bump (limits st !! n)
      (if isSupportedQoSComputeResource n
       then positivePart (Limits c !! n) else 0).
Proof.
  unfold processContainer.
  pose proof (range_limits_lookup (Limits c) (limits st) n) as H.
  destruct (range (Limits c) processLimit (limits st, ∅)) as [lim found].
  simpl in *. done.
Qed.

Lemma processContainer_isGuaranteed st id c :
  isGuaranteed (processContainer st id c)
  = isGuaranteed st && containerComplete c.
Proof.
  unfold processContainer.
  pose proof (HasAll_found (Limits c) (limits st) c eq_refl) as H.
  destruct (range (Limits c) processLimit (limits st, ∅)) as [lim found].
  simpl in *. rewrite H.
  destruct (containerComplete c), (isGuaranteed st); done.
Qed.

(** The loop over the containers, run over any sequence of them. *)
Lemma containers_loop_requests cs st n :
  requests (fold_left (λ a kv, processContainer a kv.1 kv.2) cs st) !! n
  = bump (requests st !! n)
      (if isSupportedQoSComputeResource n
       then containersTotal Requests n cs else 0).
Proof.
  revert st. induction cs as [|[id c] cs IH]; intros st; simpl.
  - destruct (isSupportedQoSComputeResource n); done.
  - rewrite IH, processContainer_requests.
    pose proof (containersTotal_nonneg Requests n cs).
    pose proof (positivePart_nonneg (Requests c !! n)).
    destruct (isSupportedQoSComputeResource n); rewrite bump_bump; done || lia.
Qed.

Lemma containers_loop_limits cs st n :
  limits (fold_left (λ a kv, processContainer a kv.1 kv.2) cs st) !! n
  = bump (limits st !! n)
      (if isSupportedQoSComputeResource n
       then containersTotal Limits n cs else 0).
Proof.
  revert st. induction cs as [|[id c] cs IH]; intros st; simpl.
  - destruct (isSupportedQoSComputeResource n); done.
  - rewrite IH, processContainer_limits.
    pose proof (containersTotal_nonneg Limits n cs).
    pose proof (positivePart_nonneg (Limits c !! n)).
    destruct (isSupportedQoSComputeResource n); rewrite bump_bump; done || lia.
Qed.

Lemma containers_loop_isGuaranteed cs st :
  isGuaranteed (fold_left (λ a kv, processContainer a kv.1 kv.2) cs st)
  = isGuaranteed st && forallb (λ kv, containerComplete kv.2) cs.
Proof.
  revert st. induction cs as [|[id c] cs IH]; intros st; simpl.
  - by rewrite andb_true_r.
  - rewrite IH, processContainer_isGuaranteed. simpl. by rewrite andb_assoc.
Qed.

(** The aggregates of a pod: under a participating name with a positive
    total, exactly that total; no entry otherwise. *)
Lemma aggregate_requests r n :
  requests (aggregate r) !! n = expectedEntry n (podTotal Requests r n).
Proof.
  unfold aggregate, range, podTotal. rewrite containers_loop_requests. simpl.
  rewrite lookup_empty. apply bump_None_expected, containersTotal_nonneg.
Qed.

Lemma aggregate_limits r n :
  limits (aggregate r) !! n = expectedEntry n (podTotal Limits r n).
Proof.
  unfold aggregate, range, podTotal. rewrite containers_loop_limits. simpl.
  rewrite lookup_empty. apply bump_None_expected, containersTotal_nonneg.
Qed.

Lemma aggregate_isGuaranteed r :
  isGuaranteed (aggregate r) = true
  ↔ ∀ id c, Containers r !! id = Some c →
      hasPositiveLimit c ResourceCPU ∧ hasPositiveLimit c ResourceMemory.
Proof.
  unfold aggregate, range. rewrite containers_loop_isGuaranteed. simpl.
  rewrite forallb_forall. split.
  - intros H id c Hc. apply containerComplete_spec.
    apply (H (id, c)). apply list_elem_of_In. by apply elem_of_map_to_list.
  - intros H [id c] Hin. simpl. apply containerComplete_spec.
    apply (H id). apply elem_of_map_to_list. by apply list_elem_of_In.
Qed.

(** The containers contribute independently of the order in which the
    loop meets them. *)
Lemma containersTotal_Permutation sel n cs cs' :
  cs ≡ₚ cs' → containersTotal sel n cs = containersTotal sel n cs'.
Proof.
  induction 1 as [|x l l' _ IH|x y l|l l' l'' _ IH1 _ IH2]; simpl;
    [done|by rewrite IH|lia|congruence].
Qed.

Lemma containers_loop_order cs cs' st :
  cs ≡ₚ cs' →
  fold_left (λ a kv, processContainer a kv.1 kv.2) cs st
  = fold_left (λ a kv, processContainer a kv.1 kv.2) cs' st.
Proof.
  intros Hp.
  pose proof (containers_loop_requests cs st) as Hr.
  pose proof (containers_loop_requests cs' st) as Hr'.
  pose proof (containers_loop_limits cs st) as Hl.
  pose proof (containers_loop_limits cs' st) as Hl'.
  pose proof (containers_loop_isGuaranteed cs st) as Hg.
  pose proof (containers_loop_isGuaranteed cs' st) as Hg'.
  destruct (fold_left _ cs st) as [r1 l1 g1].
  destruct (fold_left _ cs' st) as [r2 l2 g2].
  simpl in *. f_equal.
  - apply map_eq. intros n. rewrite Hr, Hr'.
    by rewrite (containersTotal_Permutation _ _ _ _ Hp).
  - apply map_eq. intros n. rewrite Hl, Hl'.
    by rewrite (containersTotal_Permutation _ _ _ _ Hp).
  - rewrite Hg, Hg'. f_equal.
    apply eq_true_iff_eq. rewrite !forallb_forall.
    split; intros H x Hx; apply H; apply list_elem_of_In;
      apply list_elem_of_In in Hx; [by rewrite Hp|by rewrite <- Hp].
Qed.

(** ** Iteration order

    [range] fixes one order of the entries; the loops of the
    classification give the same result in any other. *)

Lemma entriesTotal_Permutation n (l l' : list (string * Z)) :
  l ≡ₚ l' → entriesTotal n l = entriesTotal n l'.
Proof.
  induction 1 as [|[k v] l l' _ IH|[k v] [k' v'] l|l l' l'' _ IH1 _ IH2];
    simpl; [done|by rewrite IH| |congruence].
  destruct (String.eqb k n), (String.eqb k' n); lia.
Qed.

Lemma requests_loop_order (l l' : list (string * Z)) acc :
  l ≡ₚ l' →
  fold_left (λ a kv, processRequest a kv.1 kv.2) l acc
  = fold_left (λ a kv, processRequest a kv.1 kv.2) l' acc.
Proof.
  intros Hp. apply map_eq. intros n. rewrite !requests_loop_lookup.
  by rewrite (entriesTotal_Permutation n l l' Hp).
Qed.

Lemma limits_loop_order (l l' : list (string * Z)) st :
  l ≡ₚ l' →
  fold_left (λ a kv, processLimit a kv.1 kv.2) l st
  = fold_left (λ a kv, processLimit a kv.1 kv.2) l' st.
Proof.
  intros Hp.
  pose proof (limits_loop_fst l st) as H1.
  pose proof (limits_loop_fst l' st) as H1'.
  pose proof (limits_loop_snd l st) as H2.
  pose proof (limits_loop_snd l' st) as H2'.
  destruct (fold_left _ l st) as [lim found].
  destruct (fold_left _ l' st) as [lim' found'].
  simpl in *. f_equal.
  - rewrite H1, H1'. by apply requests_loop_order.
  - apply set_eq. intros n. rewrite H2, H2'.
    split; (intros [?|(Hs & q & Hin & Hq)]; [by left|right]);
      (split; [done|]); exists q; (split; [|done]).
    + by rewrite <- Hp.
    + by rewrite Hp.
Qed.

(** ** The aggregates of the specification *)

Lemma aggregated_lookup sel r n :
  aggregated sel r !! n = expectedEntry n (podTotal sel r n).
Proof.
  unfold aggregated, expectedEntry, isSupportedQoSComputeResource.
  destruct (String.eqb_spec n ResourceCPU) as [->|Hc]; simpl.
  - destruct (0 <? podTotal sel r ResourceCPU) eqn:E.
    + by rewrite lookup_insert_eq.
    + destruct (0 <? podTotal sel r ResourceMemory);
        [rewrite lookup_insert_ne|]; done.
  - destruct (String.eqb_spec n ResourceMemory) as [->|Hm]; simpl.
    + destruct (0 <? podTotal sel r ResourceCPU);
        [rewrite lookup_insert_ne by done|];
        (destruct (0 <? podTotal sel r ResourceMemory);
           [by rewrite lookup_insert_eq|done]).
    + destruct (0 <? podTotal sel r ResourceCPU);
        [rewrite lookup_insert_ne by done|];
        (destruct (0 <? podTotal sel r ResourceMemory);
           [by rewrite lookup_insert_ne|done]).
Qed.

(** The maps built by the loops are the aggregates of the
    specification. *)
Lemma aggregate_requests_aggregated r :
  requests (aggregate r) = aggregated Requests r.
Proof.
  apply map_eq. intros n. by rewrite aggregate_requests, aggregated_lookup.
Qed.

Lemma aggregate_limits_aggregated r :
  limits (aggregate r) = aggregated Limits r.
Proof.
  apply map_eq. intros n. by rewrite aggregate_limits, aggregated_lookup.
Qed.

Lemma requestsMatchLimits_spec l lim :
  requestsMatchLimits l lim = true
  ↔ ∀ n q, (n, q) ∈ l → lim !! n = Some q.
Proof.
  induction l as [|[k v] l IH]; simpl.
  - split; [|done]. intros _ n q Hin. by apply elem_of_nil in Hin.
  - destruct (lim !! k) as [x|] eqn:E.
    + destruct (Cmp x v =? 0) eqn:Ec; simpl.
      * apply Cmp_eq in Ec as ->. rewrite IH. split.
        -- intros H n q Hin. apply elem_of_cons in Hin as [[= -> ->]|Hin];
             [done|by apply H].
        -- intros H n q Hin. apply H, elem_of_cons. by right.
      * split; [done|]. intros H.
        assert (lim !! k = Some v) as Hk by (apply H, elem_of_cons; by left).
        rewrite E in Hk. injection Hk as ->.
        assert ((Cmp v v =? 0) = true) by by apply Cmp_eq. congruence.
    + split; [done|]. intros H.
      assert (lim !! k = Some v) as Hk by (apply H, elem_of_cons; by left).
      congruence.
Qed.

Lemma requestsMatchLimits_map (req lim : gmap string Z) :
  requestsMatchLimits (map_to_list req) lim = true
  ↔ ∀ n q, req !! n = Some q → lim !! n = Some q.
Proof.
  rewrite requestsMatchLimits_spec. split; intros H n q Hin.
  - by apply H, elem_of_map_to_list.
  - by apply H, elem_of_map_to_list.
Qed.

(** The three class names differ. *)
Ltac qos_distinct :=
  unfold PodQOSGuaranteed, PodQOSBurstable, PodQOSBestEffort in *;
  intros; discriminate.

Lemma size_eqb_0 (m : gmap string Z) : (size m =? 0)%nat = true ↔ m = ∅.
Proof. rewrite Nat.eqb_eq. apply map_size_empty_iff. Qed.

Lemma classify_BestEffort st :
  classify st = PodQOSBestEffort ↔ requests st = ∅ ∧ limits st = ∅.
Proof.
  unfold classify.
  destruct ((size (requests st) =? 0)%nat && (size (limits st) =? 0)%nat)
    eqn:E.
  - apply andb_true_iff in E as [E1 E2].
    apply size_eqb_0 in E1, E2. done.
  - split.
    + case_match; qos_distinct.
    + intros [E1 E2]. apply size_eqb_0 in E1, E2.
      rewrite E1, E2 in E. discriminate.
Qed.

Lemma classify_Guaranteed st :
  requests st ≠ ∅ ∨ limits st ≠ ∅ →
  (classify st = PodQOSGuaranteed
   ↔ isGuaranteed st = true
     ∧ (∀ n q, requests st !! n = Some q → limits st !! n = Some q)
     ∧ size (requests st) = size (limits st))
  ∧ (classify st ≠ PodQOSGuaranteed → classify st = PodQOSBurstable).
Proof.
  intros Hne. unfold classify.
  destruct ((size (requests st) =? 0)%nat && (size (limits st) =? 0)%nat)
    eqn:E.
  { apply andb_true_iff in E as [E1 E2]. apply size_eqb_0 in E1, E2.
    destruct Hne; congruence. }
  rewrite <- requestsMatchLimits_map, <- Nat.eqb_eq.
  destruct (isGuaranteed st); simpl.
  - destruct (requestsMatchLimits _ _); simpl.
    + destruct (size (requests st) =? size (limits st))%nat; simpl.
      * split; [tauto|done].
      * split; [|done]. split; [qos_distinct|]. intros (_ & _ & ?). done.
    + split; [|done]. split; [qos_distinct|]. intros (_ & ? & _). done.
  - split; [|done]. split; [qos_distinct|]. intros (? & _). done.
Qed.

(** ** The memoised query *)

Lemma GetPodQOS_fresh p r :
  QOSClass p = "" → Resources p = Some r →
  GetPodQOS p
  = Done (classify (aggregate r), set_QOSClass (classify (aggregate r)) p).
Proof. intros Hq Hr. unfold GetPodQOS. by rewrite Hq, Hr. Qed.

Lemma classify_nonempty st : classify st ≠ "".
Proof.
  unfold classify. repeat case_match; qos_distinct.
Qed.

(** C1: for a pod whose class is still to be computed and whose
    aggregated cpu/memory requests or limits are not both empty,
    [GetPodQOS] returns Guaranteed if and only if every container of
    [Resources.Containers] has a strictly positive limit for both cpu and
    memory, every resource kind of the aggregated requests has the same
    quantity in the aggregated limits, and the two aggregates have the
    same number of resource kinds; otherwise it returns Burstable.  One
    container without both limits rules Guaranteed out whatever the
    others declare. *)
Theorem GetPodQOS_Guaranteed_iff (p : pod) (r : PodResourceRequirements) :
  QOSClass p = "" →
  Resources p = Some r →
  aggregated Requests r ≠ ∅ ∨ aggregated Limits r ≠ ∅ →
  ∃ q, GetPodQOS p = Done (q, set_QOSClass q p)
    ∧ (q = PodQOSGuaranteed
       ↔ (∀ id c, Containers r !! id = Some c →
            hasPositiveLimit c ResourceCPU ∧ hasPositiveLimit c ResourceMemory)
         ∧ (∀ name req, aggregated Requests r !! name = Some req →
              aggregated Limits r !! name = Some req)
         ∧ size (aggregated Requests r) = size (aggregated Limits r))
    ∧ (q ≠ PodQOSGuaranteed → q = PodQOSBurstable)
    ∧ ((∃ id c, Containers r !! id = Some c
          ∧ ¬ (hasPositiveLimit c ResourceCPU
               ∧ hasPositiveLimit c ResourceMemory))
       → q = PodQOSBurstable).
Proof.
  intros Hq Hr Hne. exists (classify (aggregate r)).
  split; [by apply GetPodQOS_fresh|].
  rewrite <- aggregate_requests_aggregated, <- aggregate_limits_aggregated
    in *.
  destruct (classify_Guaranteed (aggregate r) Hne) as [Hiff Hb].
  rewrite aggregate_isGuaranteed in Hiff.
  split; [done|]. split; [done|].
  intros (id & c & Hc & Hnot). apply Hb. intros HG.
  apply Hiff in HG as (Hall & _). by apply Hnot, (Hall id).
Qed.

Lemma GetPodQOS_Guaranteed_iff_witness :
  ∃ q, GetPodQOS (samplePod (Some guaranteedResources) "")
       = Done (q, set_QOSClass q (samplePod (Some guaranteedResources) ""))
    ∧ (q = PodQOSGuaranteed
       ↔ (∀ id c, Containers guaranteedResources !! id = Some c →
            hasPositiveLimit c ResourceCPU ∧ hasPositiveLimit c ResourceMemory)
         ∧ (∀ name req,
              aggregated Requests guaranteedResources !! name = Some req →
              aggregated Limits guaranteedResources !! name = Some req)
         ∧ size (aggregated Requests guaranteedResources)
           = size (aggregated Limits guaranteedResources))
    ∧ (q ≠ PodQOSGuaranteed → q = PodQOSBurstable)
    ∧ ((∃ id c, Containers guaranteedResources !! id = Some c
          ∧ ¬ (hasPositiveLimit c ResourceCPU
               ∧ hasPositiveLimit c ResourceMemory))
       → q = PodQOSBurstable).
Proof.
  apply (GetPodQOS_Guaranteed_iff
           (samplePod (Some guaranteedResources) "") guaranteedResources).
  - reflexivity.
  - reflexivity.
  - left. intros H. apply (f_equal (λ m, m !! "cpu")) in H.
    vm_compute in H. discriminate H.
Defined.

Lemma containersTotal_zero sel n cs :
  (∀ id c, (id, c) ∈ cs → positivePart (sel c !! n) = 0) →
  containersTotal sel n cs = 0.
Proof.
  induction cs as [|[id c] cs IH]; simpl; [done|]. intros H.
  rewrite (H id c) by (apply elem_of_cons; by left).
  rewrite IH; [done|]. intros id' c' Hin. apply (H id'), elem_of_cons.
  by right.
Qed.

Lemma aggregated_empty sel r :
  (∀ n, podTotal sel r n = 0) → aggregated sel r = ∅.
Proof.
  intros H. apply map_eq. intros n.
  rewrite aggregated_lookup, lookup_empty. unfold expectedEntry.
  rewrite H. by rewrite andb_false_r.
Qed.

Lemma expectedEntry_Some n t q :
  expectedEntry n t = Some q
  ↔ (n = ResourceCPU ∨ n = ResourceMemory) ∧ 0 < q ∧ q = t.
Proof.
  unfold expectedEntry. rewrite <- isSupported_spec.
  destruct (isSupportedQoSComputeResource n); simpl.
  - destruct (Z.ltb_spec 0 t); split.
    + intros [= <-]. done.
    + intros (_ & _ & ->). done.
    + done.
    + intros (_ & ? & ->). lia.
  - split; [done|]. intros (? & _). done.
Qed.

(** C2: for a pod whose class is still to be computed, the maps built
    by [GetPodQOS] are the aggregates of the strictly positive cpu and
    memory quantities: an entry exists only under cpu or memory, is
    strictly positive and is the sum over the containers of the
    quantities above 0, so a quantity of 0 and any other resource name
    add nothing.  The result is BestEffort exactly when both aggregates
    are empty; a pod whose every declared quantity is 0 is BestEffort. *)
Theorem GetPodQOS_BestEffort_iff (p : pod) (r : PodResourceRequirements) :
  QOSClass p = "" →
  Resources p = Some r →
  requests (aggregate r) = aggregated Requests r
  ∧ limits (aggregate r) = aggregated Limits r
  ∧ (∀ name q, requests (aggregate r) !! name = Some q
       ↔ (name = ResourceCPU ∨ name = ResourceMemory)
         ∧ 0 < q ∧ q = podTotal Requests r name)
  ∧ (∀ name q, limits (aggregate r) !! name = Some q
       ↔ (name = ResourceCPU ∨ name = ResourceMemory)
         ∧ 0 < q ∧ q = podTotal Limits r name)
  ∧ ∃ q, GetPodQOS p = Done (q, set_QOSClass q p)
      ∧ (q = PodQOSBestEffort
         ↔ requests (aggregate r) = ∅ ∧ limits (aggregate r) = ∅)
      ∧ ((∀ id c name v, Containers r !! id = Some c →
            Requests c !! name = Some v ∨ Limits c !! name = Some v →
            v = 0)
         → q = PodQOSBestEffort).
Proof.
  intros Hq Hr.
  split; [apply aggregate_requests_aggregated|].
  split; [apply aggregate_limits_aggregated|].
  split; [intros n q; rewrite aggregate_requests; apply expectedEntry_Some|].
  split; [intros n q; rewrite aggregate_limits; apply expectedEntry_Some|].
  exists (classify (aggregate r)).
  split; [by apply GetPodQOS_fresh|].
  split; [apply classify_BestEffort|].
  intros Hzero. apply classify_BestEffort.
  rewrite aggregate_requests_aggregated, aggregate_limits_aggregated.
  split; apply aggregated_empty; intros n; apply containersTotal_zero;
    intros id c Hin; apply elem_of_map_to_list in Hin.
  - destruct (Requests c !! n) as [v|] eqn:E; [|done].
    rewrite (Hzero id c n v Hin (or_introl E)). done.
  - destruct (Limits c !! n) as [v|] eqn:E; [|done].
    rewrite (Hzero id c n v Hin (or_intror E)). done.
Qed.

Lemma GetPodQOS_BestEffort_iff_witness :
  GetPodQOS (samplePod (Some zeroQuantityResources) "")
  = Done (PodQOSBestEffort,
          set_QOSClass PodQOSBestEffort
            (samplePod (Some zeroQuantityResources) ""))
  ∧ requests (aggregate zeroQuantityResources) = ∅.
Proof.
  destruct (GetPodQOS_BestEffort_iff
              (samplePod (Some zeroQuantityResources) "")
              zeroQuantityResources eq_refl eq_refl)
    as (_ & _ & _ & _ & q & Hrun & Hiff & Hzero).
  assert (q = PodQOSBestEffort) as Hq.
  { apply Hzero. intros id c name v Hc Hv.
    unfold zeroQuantityResources in Hc. simpl in Hc.
    apply lookup_insert_Some in Hc as [[_ <-]|[_ Hc]];
      [|by rewrite lookup_empty in Hc].
    simpl in Hv. destruct Hv as [Hv|Hv];
      repeat (apply lookup_insert_Some in Hv as [[_ <-]|[_ Hv]]; [done|]);
      by rewrite lookup_empty in Hv. }
  subst q. split; [exact Hrun|]. by apply Hiff.
Defined.

Lemma GetPodQOS_memo p :
  QOSClass p ≠ "" → GetPodQOS p = Done (QOSClass p, p).
Proof.
  intros Hq. unfold GetPodQOS.
  destruct (String.eqb_spec (QOSClass p) ""); [done|done].
Qed.

(** A pod with a resource model always gets a class. *)
Lemma GetPodQOS_total p :
  Resources p ≠ None → ∃ q p', GetPodQOS p = Done (q, p').
Proof.
  intros Hr. unfold GetPodQOS.
  destruct (negb _); [by eauto|].
  destruct (Resources p); [by eauto|done].
Qed.

(** C5: when [GetPodQOS] returns, the class it returns is not empty and is
    stored in the pod; a second call on the resulting pod returns the same
    class and leaves the pod as it is.  The second call does not compute:
    it gives the stored class whatever the resource model holds by then,
    a nil model included. *)
Theorem GetPodQOS_idempotent (p p' : pod) (q : string) :
  GetPodQOS p = Done (q, p') →
  q ≠ ""
  ∧ QOSClass p' = q
  ∧ GetPodQOS p' = Done (q, p')
  ∧ ∀ r, GetPodQOS (set_Resources r p') = Done (q, set_Resources r p').
Proof.
  intros Hrun.
  assert (q ≠ "" ∧ QOSClass p' = q) as [Hq Hp'].
  { unfold GetPodQOS in Hrun.
    destruct (String.eqb_spec (QOSClass p) "") as [He|Hne]; simpl in Hrun.
    - destruct (Resources p) as [r|]; [|done].
      injection Hrun as <- <-. split; [apply classify_nonempty|done].
    - injection Hrun as <- <-. done. }
  subst q. split; [done|]. split; [done|].
  split.
  - by apply GetPodQOS_memo.
  - intros r. by apply (GetPodQOS_memo (set_Resources r p')).
Qed.

Lemma GetPodQOS_idempotent_witness :
  GetPodQOS (samplePod (Some guaranteedResources) "")
  = Done (PodQOSGuaranteed,
          samplePod (Some guaranteedResources) PodQOSGuaranteed)
  ∧ PodQOSGuaranteed ≠ ""
  ∧ QOSClass (samplePod (Some guaranteedResources) PodQOSGuaranteed)
    = PodQOSGuaranteed
  ∧ GetPodQOS (samplePod (Some guaranteedResources) PodQOSGuaranteed)
    = Done (PodQOSGuaranteed,
            samplePod (Some guaranteedResources) PodQOSGuaranteed)
  ∧ ∀ r, GetPodQOS
           (set_Resources r
              (samplePod (Some guaranteedResources) PodQOSGuaranteed))
         = Done (PodQOSGuaranteed,
                 set_Resources r
                   (samplePod (Some guaranteedResources) PodQOSGuaranteed)).
Proof.
  assert (GetPodQOS (samplePod (Some guaranteedResources) "")
          = Done (PodQOSGuaranteed,
                  samplePod (Some guaranteedResources) PodQOSGuaranteed))
    as Hfirst by (vm_compute; reflexivity).
  split; [exact Hfirst|].
  exact (GetPodQOS_idempotent _ _ _ Hfirst).
Defined.

(** C9: on a pod whose [Resources] is nil and whose class is not yet
    computed, [GetPodQOS] dereferences the nil pointer instead of
    returning a class. *)
Theorem GetPodQOS_nil_Resources_panics :
  GetPodQOS (samplePod None "")
  = Panic "invalid memory address or nil pointer dereference".
Proof. reflexivity. Qed.

(** ** Container queries *)

Lemma GetInitContainers_nil c p :
  Resources p = None → GetInitContainers c p = [].
Proof. intros H. unfold GetInitContainers. by rewrite H. Qed.

Lemma collect_all (l : list (string * container.t)) acc :
  fold_left (λ a kv, a ++ [kv.2]) l acc = acc ++ l.*2.
Proof.
  revert acc. induction l as [|[k v] l IH]; intros acc; simpl.
  - by rewrite app_nil_r.
  - rewrite IH. by rewrite <- app_assoc.
Qed.

(** Without a resource model the loop keeps every container of the
    cache, whichever pod owns it. *)
Lemma GetContainers_nil c p :
  Resources p = None →
  GetContainers c p = (map_to_list (cache.Containers c)).*2.
Proof.
  intros H. unfold GetContainers, range. rewrite H. apply collect_all.
Qed.

Lemma collect_none (l : list (string * container.t)) acc :
  fold_left
    (λ a kv, match (∅ : gmap string ResourceRequirements) !! container.Id kv.2
             with Some _ => a ++ [kv.2] | None => a end) l acc = acc.
Proof.
  revert acc. induction l as [|[k v] l IH]; intros acc; simpl; [done|].
  by rewrite lookup_empty.
Qed.

Lemma GetContainers_zero c p :
  Resources p = Some zeroResources → GetContainers c p = [].
Proof.
  intros H. unfold GetContainers, range. rewrite H. simpl.
  apply collect_none.
Qed.

(** C3: on a pod without a resource model, in a cache that also holds
    a container of another pod, [GetContainers] returns that container
    too. *)
Theorem GetContainers_nil_returns_foreign_container :
  GetInitContainers sampleCache (samplePod None "") = []
  ∧ ∃ ctr, ctr ∈ GetContainers sampleCache (samplePod None "")
      ∧ container.PodId ctr ≠ Id (samplePod None "").
Proof.
  split; [reflexivity|].
  exists (container.mk "c1" "sandbox1"). split.
  - rewrite GetContainers_nil by reflexivity.
    apply list_elem_of_fmap. exists ("c1", container.mk "c1" "sandbox1").
    split; [reflexivity|]. apply elem_of_map_to_list. reflexivity.
  - simpl. discriminate.
Qed.

(** ** Construction and annotation parsing, for any JSON decoder *)

Section Construction.
Variable Unmarshal :
  string → PodResourceRequirements → PodResourceRequirements * option error.

(** What [parseResourceAnnotations] comes to. *)
Lemma parseResourceAnnotations_eq c p :
  parseResourceAnnotations Unmarshal c p
  = match Annotations p !! KeyResourceAnnotation with
    | None => (c, set_Resources (Some zeroResources) p)
    | Some value =>
        (match (Unmarshal value zeroResources).2 with
         | Some e =>
             cache.Error c "failed to decode annotation %s (%s): %v"
               KeyResourceAnnotation value e
         | None => c
         end,
         set_Resources (Some (Unmarshal value zeroResources).1) p)
    end.
Proof.
  unfold parseResourceAnnotations, GetAnnotationObject, GetAnnotation.
  simpl. destruct (Annotations p !! KeyResourceAnnotation) as [v|]; simpl.
  - destruct (Unmarshal v zeroResources) as [r err]. reflexivity.
  - reflexivity.
Qed.

Lemma parseResourceAnnotations_Resources c p :
  ∃ r, Resources (parseResourceAnnotations Unmarshal c p).2 = Some r.
Proof.
  rewrite parseResourceAnnotations_eq.
  destruct (Annotations p !! KeyResourceAnnotation); simpl; eauto.
Qed.

Lemma parseResourceAnnotations_fields c p :
  let p' := (parseResourceAnnotations Unmarshal c p).2 in
  Id p' = Id p ∧ State p' = State p ∧ Annotations p' = Annotations p
  ∧ Labels p' = Labels p ∧ QOSClass p' = QOSClass p.
Proof.
  rewrite parseResourceAnnotations_eq.
  destruct (Annotations p !! KeyResourceAnnotation); simpl; done.
Qed.

Lemma extractLabels_fields c p :
  let p' := (extractLabels c p).2 in
  Id p' = Id p ∧ State p' = State p ∧ Annotations p' = Annotations p
  ∧ Resources p' = Resources p ∧ QOSClass p' = QOSClass p.
Proof.
  unfold extractLabels. destruct (GetLabel p KubernetesPodUIDLabel).
  simpl. done.
Qed.

Lemma fromRunRequest_complete c p req cfg meta :
  cri.RunPodSandboxRequest.Config req = Some cfg →
  cri.PodSandboxConfig.Metadata cfg = Some meta →
  fromRunRequest Unmarshal c p req
  = (finishConstruction Unmarshal c (runRequestPod p cfg meta), None).
Proof.
  intros Hc Hm. unfold fromRunRequest, finishConstruction.
  rewrite Hc, Hm. fold (runRequestPod p cfg meta).
  destruct (parseResourceAnnotations _ _ _) as [c1 p1]. simpl.
  destruct (extractLabels c1 p1) as [c2 p2]. reflexivity.
Qed.

Lemma fromListResponse_complete c p sandbox meta :
  cri.PodSandbox.Metadata sandbox = Some meta →
  fromListResponse Unmarshal c p sandbox
  = (finishConstruction Unmarshal c (listResponsePod p sandbox meta), None).
Proof.
  intros Hm. unfold fromListResponse, finishConstruction.
  rewrite Hm. fold (listResponsePod p sandbox meta).
  destruct (parseResourceAnnotations _ _ _) as [c1 p1]. simpl.
  destruct (extractLabels c1 p1) as [c2 p2]. reflexivity.
Qed.

Lemma finishConstruction_fields c p :
  let p' := (finishConstruction Unmarshal c p).2 in
  Id p' = Id p ∧ State p' = State p ∧ Annotations p' = Annotations p
  ∧ QOSClass p' = QOSClass p
  ∧ Resources p' = Resources (parseResourceAnnotations Unmarshal c p).2.
Proof.
  unfold finishConstruction.
  destruct (parseResourceAnnotations_fields c p) as (? & ? & ? & ? & ?).
  destruct (extractLabels_fields (parseResourceAnnotations Unmarshal c p).1
              (parseResourceAnnotations Unmarshal c p).2)
    as (? & ? & ? & ? & ?).
  simpl in *. repeat split; congruence.
Qed.

Lemma runRequest_complete_or_not req :
  runRequestComplete req ∨ runRequestIncomplete req.
Proof.
  unfold runRequestComplete, runRequestIncomplete.
  destruct (cri.RunPodSandboxRequest.Config req) as [cfg|] eqn:Hc.
  - destruct (cri.PodSandboxConfig.Metadata cfg) as [meta|] eqn:Hm.
    + left. eauto.
    + right. right. eauto.
  - right. by left.
Qed.

Lemma runRequest_not_both req :
  runRequestComplete req → runRequestIncomplete req → False.
Proof.
  intros (cfg & meta & Hc & Hm) [Hn|(cfg' & Hc' & Hm')]; congruence.
Qed.

Lemma fromRunRequest_incomplete c p req :
  runRequestIncomplete req →
  ∃ format, fromRunRequest Unmarshal c p req
            = (c, p, Some (CacheError format (Id p))).
Proof.
  intros [Hn|(cfg & Hc & Hm)]; unfold fromRunRequest.
  - rewrite Hn. by eexists.
  - rewrite Hc, Hm. by eexists.
Qed.

(** C4: construction from a run request returns a cache error, and
    leaves cache and pod as they were, exactly when the request has no
    config or its config has no metadata; construction from a list entry
    does so exactly when the entry has no metadata.  In every other
    case the error returned is nil. *)
Theorem construction_error_iff (c : cache.t) (p : pod)
    (req : cri.RunPodSandboxRequest.t) (sandbox : cri.PodSandbox.t) :
  ((∃ format, fromRunRequest Unmarshal c p req
              = (c, p, Some (CacheError format (Id p))))
   ↔ runRequestIncomplete req)
  ∧ ((fromRunRequest Unmarshal c p req).2 = None ↔ runRequestComplete req)
  ∧ ((∃ format, fromListResponse Unmarshal c p sandbox
                = (c, p, Some (CacheError format (Id p))))
     ↔ cri.PodSandbox.Metadata sandbox = None)
  ∧ ((fromListResponse Unmarshal c p sandbox).2 = None
     ↔ ∃ meta, cri.PodSandbox.Metadata sandbox = Some meta).
Proof.
  pose proof (fromRunRequest_incomplete c p req) as Hbad.
  assert (runRequestComplete req →
          (fromRunRequest Unmarshal c p req).2 = None) as Hgood.
  { intros (cfg & meta & Hc & Hm).
    by rewrite (fromRunRequest_complete c p req cfg meta Hc Hm). }
  split; [|split; [|split]].
  - split; [|exact Hbad]. intros [format Hrun].
    destruct (runRequest_complete_or_not req) as [Hok|?]; [|done].
    apply Hgood in Hok. rewrite Hrun in Hok. done.
  - split; [|exact Hgood]. intros Hnil.
    destruct (runRequest_complete_or_not req) as [?|Hno]; [done|].
    apply Hbad in Hno as [format Hrun]. rewrite Hrun in Hnil. done.
  - unfold fromListResponse.
    destruct (cri.PodSandbox.Metadata sandbox) as [meta|] eqn:Hm.
    + split; [|done]. intros [format Hrun]. exfalso. revert Hrun.
      destruct (parseResourceAnnotations _ _ _) as [c1 p1].
      destruct (extractLabels c1 p1) as [c2 p2]. done.
    + split; [done|]. intros _. by eexists.
  - destruct (cri.PodSandbox.Metadata sandbox) as [meta|] eqn:Hm.
    + rewrite (fromListResponse_complete c p sandbox meta Hm).
      split; [by eauto|done].
    + unfold fromListResponse. rewrite Hm. simpl.
      split; [done|]. intros [meta ?]. done.
Qed.

(** C6: a run request with config and metadata yields a pod whose
    state is Ready, whatever the request holds; a list entry with
    metadata yields a pod whose state is the entry's own state. *)
Theorem construction_State (c : cache.t) (p : pod)
    (req : cri.RunPodSandboxRequest.t) (sandbox : cri.PodSandbox.t) :
  (runRequestComplete req →
   ∃ c' p', fromRunRequest Unmarshal c p req = (c', p', None)
     ∧ State p' = PodStateReady)
  ∧ ((∃ meta, cri.PodSandbox.Metadata sandbox = Some meta) →
     ∃ c' p', fromListResponse Unmarshal c p sandbox = (c', p', None)
       ∧ State p' = cri.PodSandbox.State sandbox).
Proof.
  split.
  - intros (cfg & meta & Hc & Hm).
    rewrite (fromRunRequest_complete c p req cfg meta Hc Hm).
    destruct (finishConstruction_fields c (runRequestPod p cfg meta))
      as (_ & Hs & _).
    destruct (finishConstruction _ _ _) as [c' p']. exists c', p'. done.
  - intros [meta Hm].
    rewrite (fromListResponse_complete c p sandbox meta Hm).
    destruct (finishConstruction_fields c (listResponsePod p sandbox meta))
      as (_ & Hs & _).
    destruct (finishConstruction _ _ _) as [c' p']. exists c', p'. done.
Qed.

(** C8 as amended: without the annotation the pod gets the zero
    model and nothing is logged; with it, the model is what the decoder
    left in a fresh zero model, error or not, so it is the zero model
    whenever the decoder stored nothing; in no case does the model the
    pod had before enter the result. *)
Theorem parseResourceAnnotations_model (c : cache.t) (p : pod) :
  (Annotations p !! KeyResourceAnnotation = None →
   parseResourceAnnotations Unmarshal c p
   = (c, set_Resources (Some zeroResources) p))
  ∧ (∀ value, Annotations p !! KeyResourceAnnotation = Some value →
       Resources (parseResourceAnnotations Unmarshal c p).2
       = Some (Unmarshal value zeroResources).1)
  ∧ (∀ old, (parseResourceAnnotations Unmarshal c (set_Resources old p)).2
            = (parseResourceAnnotations Unmarshal c p).2).
Proof.
  split; [|split].
  - intros Ha. by rewrite parseResourceAnnotations_eq, Ha.
  - intros value Ha. by rewrite parseResourceAnnotations_eq, Ha.
  - intros old. rewrite !parseResourceAnnotations_eq. simpl.
    destruct (Annotations p !! KeyResourceAnnotation); reflexivity.
Qed.

Lemma collect_filter {V : Type} (ids : gmap string V)
    (l : list (string * container.t)) acc :
  fold_left
    (λ a kv, match ids !! container.Id kv.2 with
             | Some _ => a ++ [kv.2]
             | None => a
             end) l acc
  = acc ++ filter (λ ctr, is_Some (ids !! container.Id ctr)) l.*2.
Proof.
  revert acc. induction l as [|[k v] l IH]; intros acc; simpl.
  - by rewrite app_nil_r.
  - rewrite IH, filter_cons. simpl.
    destruct (ids !! container.Id v) as [x|] eqn:E.
    + rewrite decide_True by eauto. by rewrite <- app_assoc.
    + rewrite decide_False; [done|]. by intros [? ?].
Qed.

Lemma GetContainers_model c p r :
  Resources p = Some r → GetContainers c p = containersIn (Containers r) c.
Proof.
  intros H. unfold GetContainers, containersIn, range. rewrite H.
  by rewrite collect_filter.
Qed.

Lemma GetInitContainers_model c p r :
  Resources p = Some r →
  GetInitContainers c p = containersIn (InitContainers r) c.
Proof.
  intros H. unfold GetInitContainers, containersIn, range. rewrite H.
  by rewrite collect_filter.
Qed.

Lemma finishConstruction_model c p :
  ∃ r, Resources (finishConstruction Unmarshal c p).2 = Some r
    ∧ (Annotations (finishConstruction Unmarshal c p).2
         !! KeyResourceAnnotation = None → r = zeroResources).
Proof.
  destruct (finishConstruction_fields c p) as (_ & _ & Ha & _ & Hr).
  simpl in *. rewrite Hr, Ha. rewrite parseResourceAnnotations_eq.
  destruct (Annotations p !! KeyResourceAnnotation) as [v|]; simpl.
  - eexists. split; [done|]. done.
  - eexists. split; [done|]. done.
Qed.

(** C10: a pod that either constructor returned without error has a
    resource model; the container queries and
    [GetPodResourceRequirements] then go by that model, never by their
    branch for a nil one; and when the pod has no resource annotation the
    model is the zero model and [GetContainers] keeps no container. *)
Theorem constructed_pod_has_Resources (c c' : cache.t) (p p' : pod)
    (req : cri.RunPodSandboxRequest.t) (sandbox : cri.PodSandbox.t) :
  fromRunRequest Unmarshal c p req = (c', p', None)
  ∨ fromListResponse Unmarshal c p sandbox = (c', p', None) →
  ∃ r, Resources p' = Some r
    ∧ (∀ k, GetInitContainers k p' = containersIn (InitContainers r) k)
    ∧ (∀ k, GetContainers k p' = containersIn (Containers r) k)
    ∧ GetPodResourceRequirements p' = r
    ∧ (Annotations p' !! KeyResourceAnnotation = None →
       r = zeroResources ∧ ∀ k, GetContainers k p' = []).
Proof.
  intros Hrun.
  assert (∃ q, p' = (finishConstruction Unmarshal c q).2) as [q ->].
  { destruct Hrun as [Hrun|Hrun].
    - destruct (runRequest_complete_or_not req)
        as [(cfg & meta & Hc & Hm)|Hno].
      + rewrite (fromRunRequest_complete c p req cfg meta Hc Hm) in Hrun.
        exists (runRequestPod p cfg meta).
        destruct (finishConstruction _ _ _). by injection Hrun as _ <-.
      + apply (fromRunRequest_incomplete c p req) in Hno
          as [format Hno]. congruence.
    - destruct (cri.PodSandbox.Metadata sandbox) as [meta|] eqn:Hm.
      + rewrite (fromListResponse_complete c p sandbox meta Hm) in Hrun.
        exists (listResponsePod p sandbox meta).
        destruct (finishConstruction _ _ _). by injection Hrun as _ <-.
      + unfold fromListResponse in Hrun. rewrite Hm in Hrun. done. }
  destruct (finishConstruction_model c q) as (r & Hr & Hzero).
  exists r. split; [done|].
  split; [intros k; by apply GetInitContainers_model|].
  split; [intros k; by apply GetContainers_model|].
  split; [unfold GetPodResourceRequirements; by rewrite Hr|].
  intros Ha. specialize (Hzero Ha). subst r.
  split; [done|]. intros k. by apply GetContainers_zero.
Qed.
End Construction.

(** ** Construction on sample messages, with the JSON decoder *)

Lemma construction_State_witness :
  (∃ c' p', fromRunRequest jsonUnmarshal sampleCache (newPod "sandbox0")
              (sampleRequest ∅) = (c', p', None)
     ∧ State p' = PodStateReady)
  ∧ (∃ c' p', fromListResponse jsonUnmarshal sampleCache (newPod "sandbox0")
                (sampleSandbox PodStateNotReady ∅) = (c', p', None)
       ∧ State p' = PodStateNotReady).
Proof.
  destruct (construction_State jsonUnmarshal sampleCache (newPod "sandbox0")
              (sampleRequest ∅) (sampleSandbox PodStateNotReady ∅))
    as [Hrun Hlist].
  split.
  - apply Hrun. unfold runRequestComplete. simpl. eauto.
  - apply Hlist. simpl. eauto.
Defined.

Lemma parseResourceAnnotations_model_witness :
  parseResourceAnnotations jsonUnmarshal sampleCache
    (samplePod (Some guaranteedResources) "")
  = (sampleCache, samplePod (Some zeroResources) "").
Proof.
  apply (parseResourceAnnotations_model jsonUnmarshal sampleCache
           (samplePod (Some guaranteedResources) "")).
  reflexivity.
Defined.

(** C8, the claim as stated fails: the decoding of the half-valid
    annotation reports an error, which is logged, and the model of the pod
    is not the zero model: it holds the container read before the
    mismatch. *)
Lemma parseResourceAnnotations_keeps_partial_model :
  (jsonUnmarshal halfValidAnnotation zeroResources).2
  = Some (UnmarshalError "InitContainers")
  ∧ cache.Log (parseResourceAnnotations jsonUnmarshal sampleCache
                 halfValidPod).1
    = [LogError "failed to decode annotation %s (%s): %v"
         KeyResourceAnnotation halfValidAnnotation
         (UnmarshalError "InitContainers")]
  ∧ Resources (parseResourceAnnotations jsonUnmarshal sampleCache
                 halfValidPod).2
    = Some (mkPodResourceRequirements ∅
              {[ "c0" := mkResourceRequirements ∅ ∅ ]})
  ∧ Resources (parseResourceAnnotations jsonUnmarshal sampleCache
                 halfValidPod).2
    ≠ Some zeroResources.
Proof.
  split; [vm_compute; reflexivity|].
  split; [vm_compute; reflexivity|].
  assert (Resources (parseResourceAnnotations jsonUnmarshal sampleCache
                       halfValidPod).2
          = Some (mkPodResourceRequirements ∅
                    {[ "c0" := mkResourceRequirements ∅ ∅ ]})) as H
    by (vm_compute; reflexivity).
  split; [exact H|]. rewrite H. intros Hc.
  pose proof (f_equal (λ o, match o with
                            | Some r => Containers r !! "c0"
                            | None => None
                            end) Hc) as Hl.
  vm_compute in Hl. discriminate Hl.
Qed.

Lemma constructed_pod_has_Resources_witness :
  ∃ r, Resources
         (fromRunRequest jsonUnmarshal sampleCache (newPod "sandbox0")
            (sampleRequest ∅)).1.2 = Some r
    ∧ ∀ k, GetContainers k
             (fromRunRequest jsonUnmarshal sampleCache (newPod "sandbox0")
                (sampleRequest ∅)).1.2 = [].
Proof.
  destruct (constructed_pod_has_Resources jsonUnmarshal sampleCache
              (fromRunRequest jsonUnmarshal sampleCache (newPod "sandbox0")
                 (sampleRequest ∅)).1.1
              (newPod "sandbox0")
              (fromRunRequest jsonUnmarshal sampleCache (newPod "sandbox0")
                 (sampleRequest ∅)).1.2
              (sampleRequest ∅) (sampleSandbox 0 ∅))
    as (r & Hr & _ & _ & _ & Hzero).
  - left. vm_compute. reflexivity.
  - exists r. split; [exact Hr|]. apply Hzero. vm_compute. reflexivity.
Defined.

(** ** Numbers and their string forms *)

Lemma maxUint64_eq : maxUint64 = 18446744073709551615.
Proof. reflexivity. Qed.

Lemma wrapUnsigned_small z : 0 ≤ z ≤ maxUint64 → wrapUnsigned 64 z = z.
Proof.
  rewrite maxUint64_eq. intros H. unfold wrapUnsigned.
  apply Z.mod_small. change (2 ^ 64) with 18446744073709551616. lia.
Qed.

Lemma wrapSigned_small z : - 2 ^ 63 ≤ z < 2 ^ 63 → wrapSigned 64 z = z.
Proof.
  change (2 ^ 63) with 9223372036854775808. intros H. unfold wrapSigned.
  change (2 ^ (64 - 1)) with 9223372036854775808.
  change (2 ^ 64) with 18446744073709551616.
  rewrite Z.mod_small; lia.
Qed.

(** Negating the magnitude of a negative [int64], as [ParseInt] does. *)
Lemma wrapSigned_negate u :
  0 ≤ u ≤ 2 ^ 63 → wrapSigned 64 (- wrapSigned 64 u) = - u.
Proof.
  change (2 ^ 63) with 9223372036854775808. intros H.
  destruct (Z.eq_dec u 9223372036854775808) as [->|Hne]; [reflexivity|].
  rewrite (wrapSigned_small u), wrapSigned_small;
    change (2 ^ 63) with 9223372036854775808; lia.
Qed.

Lemma small_cases (P : Z → Prop) d :
  0 ≤ d < 16 →
  P 0 → P 1 → P 2 → P 3 → P 4 → P 5 → P 6 → P 7 →
  P 8 → P 9 → P 10 → P 11 → P 12 → P 13 → P 14 → P 15 → P d.
Proof.
  intros H. intros.
  assert (d = 0 ∨ d = 1 ∨ d = 2 ∨ d = 3 ∨ d = 4 ∨ d = 5 ∨ d = 6 ∨ d = 7
          ∨ d = 8 ∨ d = 9 ∨ d = 10 ∨ d = 11 ∨ d = 12 ∨ d = 13 ∨ d = 14
          ∨ d = 15) as Hd by lia.
  repeat (destruct Hd as [->|Hd]; [assumption|]). by subst.
Qed.

(** A digit character reads back as its digit; it is no underscore and
    no sign. *)
Lemma digitChar_read d :
  0 ≤ d < 16 →
  digitValue (byteZ (digitChar d)) = Some d
  ∧ (byteZ (digitChar d) =? 95) = false
  ∧ (byteZ (digitChar d) =? 43) = false
  ∧ (byteZ (digitChar d) =? 45) = false
  ∧ (byteZ (digitChar d) =? 48) = (d =? 0).
Proof.
  intros H. pattern d. apply small_cases; [done|..]; by vm_compute.
Qed.

Section DigitLoop.
Variables (base maxVal cutoff : Z) (base0 : bool).
Hypothesis Hbase : 2 ≤ base ≤ 16.
Hypothesis HmaxVal : maxVal ≤ maxUint64.
Hypothesis Hcutoff : cutoff = maxUint64 / base + 1.

Lemma digitsLoop_digit d rest n us :
  0 ≤ d < base → 0 ≤ n → n * base + d ≤ maxVal →
  digitsLoop base maxVal cutoff base0 (String (digitChar d) rest) n us
  = digitsLoop base maxVal cutoff base0 rest (n * base + d) us.
Proof.
  intros Hd Hn Hle.
  destruct (digitChar_read d) as (Hv & Hu & _); [lia|].
  simpl. rewrite Hu, Hv. simpl.
  assert ((d >=? base) = false) as -> by lia.
  assert (n ≤ maxUint64 / base) as Hdiv
    by (apply Z.div_le_lower_bound; nia).
  assert ((n >=? cutoff) = false) as -> by lia.
  rewrite (wrapUnsigned_small (n * base)) by nia.
  rewrite (wrapUnsigned_small (n * base + d)) by nia.
  assert ((n * base + d <? n * base) = false) as -> by lia.
  assert ((n * base + d >? maxVal) = false) as -> by lia.
  reflexivity.
Qed.

(** Reading the digits that [formatBits] wrote gives the number
    back. *)
Lemma digitsLoop_formatBits fuel n acc us :
  0 ≤ n < base ^ Z.of_nat fuel → n ≤ maxVal →
  digitsLoop base maxVal cutoff base0 (formatBits fuel base n acc) 0 us
  = digitsLoop base maxVal cutoff base0 acc n us.
Proof.
  revert n acc. induction fuel as [|fuel IH]; intros n acc Hn Hle.
  - simpl in *. by replace n with 0 by lia.
  - cbn [formatBits].
    pose proof (Z.mod_pos_bound n base ltac:(lia)) as Hmod.
    pose proof (Z.div_mod n base ltac:(lia)) as Hdm.
    destruct (Z.eqb_spec (n / base) 0) as [Hz|Hnz].
    + rewrite Hz in Hdm. rewrite digitsLoop_digit by lia. f_equal. lia.
    + assert (0 ≤ n / base) by (apply Z.div_pos; lia).
      assert (n / base ≤ n) by (apply Z.div_le_upper_bound; nia).
      rewrite IH.
      * rewrite digitsLoop_digit by lia. f_equal. lia.
      * split; [done|]. apply Z.div_lt_upper_bound; [lia|].
        rewrite Nat2Z.inj_succ, Z.pow_succ_r in Hn by lia. lia.
      * lia.
Qed.

Lemma formatBits_head fuel n acc :
  (0 < fuel)%nat → 0 ≤ n < base ^ Z.of_nat fuel →
  ∃ d rest, formatBits fuel base n acc = String (digitChar d) rest
    ∧ 0 ≤ d < base ∧ (0 < n → 0 < d).
Proof.
  revert n acc. induction fuel as [|fuel IH]; intros n acc Hf Hn; [lia|].
  cbn [formatBits].
  pose proof (Z.mod_pos_bound n base ltac:(lia)) as Hmod.
  pose proof (Z.div_mod n base ltac:(lia)) as Hdm.
  destruct (Z.eqb_spec (n / base) 0) as [Hz|Hnz].
  - rewrite Hz in Hdm.
    exists (n mod base), acc. split; [done|]. split; [done|]. lia.
  - assert (0 ≤ n / base) by (apply Z.div_pos; lia).
    assert (n / base < base ^ Z.of_nat fuel) as Hlt.
    { apply Z.div_lt_upper_bound; [lia|].
      rewrite Nat2Z.inj_succ, Z.pow_succ_r in Hn by lia. lia. }
    destruct fuel as [|fuel']; [simpl in Hlt; lia|].
    destruct (IH (n / base) (String (digitChar (n mod base)) acc))
      as (d & rest & Heq & Hd & Hpos); [lia|lia|].
    exists d, rest. split; [done|]. split; [done|]. intros _. apply Hpos. lia.
Qed.
End DigitLoop.

Lemma FormatUint_head base n :
  2 ≤ base ≤ 16 → 0 ≤ n ≤ maxUint64 →
  ∃ d rest, FormatUint n base = String (digitChar d) rest
    ∧ 0 ≤ d < base ∧ (0 < n → 0 < d).
Proof.
  intros Hb Hn. apply formatBits_head; [done|lia|].
  split; [lia|]. rewrite maxUint64_eq in Hn.
  assert (2 ^ Z.of_nat 64 ≤ base ^ Z.of_nat 64)
    by (apply Z.pow_le_mono_l; lia).
  change (2 ^ Z.of_nat 64) with 18446744073709551616 in *. lia.
Qed.

Lemma digitsLoop_FormatUint base base0 n :
  2 ≤ base ≤ 16 → 0 ≤ n ≤ maxUint64 →
  digitsLoop base maxUint64 (maxUint64 / base + 1) base0
    (FormatUint n base) 0 false
  = DigitsDone n false.
Proof.
  intros Hb Hn. unfold FormatUint.
  rewrite (digitsLoop_formatBits base maxUint64 (maxUint64 / base + 1) base0
             Hb ltac:(lia) eq_refl 64 n "" false); [done| |lia].
  split; [lia|]. rewrite maxUint64_eq in Hn.
  assert (2 ^ Z.of_nat 64 ≤ base ^ Z.of_nat 64)
    by (apply Z.pow_le_mono_l; lia).
  change (2 ^ Z.of_nat 64) with 18446744073709551616 in *. lia.
Qed.

Lemma detectBase_decimal c rest :
  (byteZ c =? 48) = false → detectBase (String c rest) = (10, String c rest).
Proof. intros H. unfold detectBase. by rewrite H. Qed.

Lemma detectBase_hex c rest :
  detectBase (String "0" (String "x" (String c rest))) = (16, String c rest).
Proof. reflexivity. Qed.

(** The tail of [ParseUint] once base and digits are known, for a width
    of 64 bits. *)
Lemma ParseUint_unfold s base bitSize :
  s ≠ "" → base = 0 → bitSize = 0 ∨ bitSize = 64 →
  ParseUint s base bitSize
  = match digitsLoop (detectBase s).1 maxUint64
            (maxUint64 / (detectBase s).1 + 1) true (detectBase s).2 0 false
    with
    | DigitsError v ErrRange => (v, Some (rangeError "ParseUint" s))
    | DigitsError v _ => (v, Some (syntaxError "ParseUint" s))
    | DigitsDone n underscores =>
        if underscores && negb (underscoreOK s)
        then (0, Some (syntaxError "ParseUint" s))
        else (n, None)
    end.
Proof.
  intros Hs -> Hbits. unfold ParseUint.
  destruct (String.eqb_spec s "") as [?|_]; [done|].
  change ((2 <=? 0) && (0 <=? 36)) with false. cbv iota.
  change (0 =? 0) with true. cbv iota beta.
  destruct (detectBase s) as [b digits]. cbn [fst snd].
  destruct Hbits as [-> | ->]; reflexivity.
Qed.

Lemma ParseUint_FormatUint n bitSize :
  bitSize = 0 ∨ bitSize = 64 → 0 ≤ n ≤ maxUint64 →
  ParseUint (FormatUint n 10) 0 bitSize = (n, None).
Proof.
  intros Hbits Hn.
  destruct (FormatUint_head 10 n ltac:(lia) Hn) as (d & rest & Heq & Hd & Hpos).
  destruct (Z.eq_dec n 0) as [->|Hnz].
  { destruct Hbits as [-> | ->]; reflexivity. }
  destruct (digitChar_read d ltac:(lia)) as (_ & _ & _ & _ & H48).
  assert ((d =? 0) = false) as Hd0 by lia. rewrite Hd0 in H48.
  rewrite ParseUint_unfold; [|by rewrite Heq|done|done].
  rewrite Heq, (detectBase_decimal _ _ H48), <- Heq. cbn [fst snd].
  by rewrite digitsLoop_FormatUint by lia.
Qed.

Lemma ParseUint_hexUint n bitSize :
  bitSize = 0 ∨ bitSize = 64 → 0 ≤ n ≤ maxUint64 →
  ParseUint (hexUint n) 0 bitSize = (n, None).
Proof.
  intros Hbits Hn.
  destruct (FormatUint_head 16 n ltac:(lia) Hn) as (d & rest & Heq & _).
  rewrite ParseUint_unfold; [|done|done|done].
  unfold hexUint. rewrite Heq, detectBase_hex, <- Heq. cbn [fst snd].
  by rewrite digitsLoop_FormatUint by lia.
Qed.

Lemma ParseInt_cutoff bitSize :
  bitSize = 0 ∨ bitSize = 64 →
  wrapUnsigned 64 (2 ^ ((if bitSize =? 0 then IntSize else bitSize) - 1))
  = 2 ^ 63.
Proof. intros [-> | ->]; reflexivity. Qed.

(** [ParseInt] on digits without a sign, and after a minus sign. *)
Lemma ParseInt_unsigned c rest bitSize un :
  (byteZ c =? 43) = false → (byteZ c =? 45) = false →
  bitSize = 0 ∨ bitSize = 64 →
  ParseUint (String c rest) 0 bitSize = (un, None) →
  0 ≤ un < 2 ^ 63 →
  ParseInt (String c rest) 0 bitSize = (un, None).
Proof.
  intros Hplus Hminus Hbits Hparse Hun. unfold ParseInt.
  cbn [String.eqb]. rewrite Hplus, Hminus, Hparse.
  rewrite (ParseInt_cutoff _ Hbits).
  assert ((un >=? 2 ^ 63) = false) as -> by lia.
  cbn [negb andb]. by rewrite wrapSigned_small by lia.
Qed.

Lemma ParseInt_negative rest bitSize un :
  bitSize = 0 ∨ bitSize = 64 →
  ParseUint rest 0 bitSize = (un, None) →
  0 ≤ un ≤ 2 ^ 63 →
  ParseInt (String "-" rest) 0 bitSize = (- un, None).
Proof.
  intros Hbits Hparse Hun. unfold ParseInt.
  cbn [String.eqb]. change (byteZ "-" =? 43) with false.
  change (byteZ "-" =? 45) with true. cbv iota. rewrite Hparse.
  rewrite (ParseInt_cutoff _ Hbits).
  assert ((un >? 2 ^ 63) = false) as -> by lia.
  cbn [negb andb]. by rewrite wrapSigned_negate.
Qed.

Lemma ParseInt_FormatInt i bitSize :
  bitSize = 0 ∨ bitSize = 64 → - 2 ^ 63 ≤ i < 2 ^ 63 →
  ParseInt (FormatInt i 10) 0 bitSize = (i, None).
Proof.
  intros Hbits Hi. unfold FormatInt.
  assert (2 ^ 63 < maxUint64) by reflexivity.
  destruct (Z.ltb_spec i 0) as [Hneg|Hpos].
  - rewrite (ParseInt_negative _ bitSize (- i)); [f_equal; lia|done| |lia].
    apply ParseUint_FormatUint; [done|lia].
  - destruct (FormatUint_head 10 i ltac:(lia) ltac:(lia))
      as (d & rest & Heq & Hd & _).
    destruct (digitChar_read d ltac:(lia)) as (_ & _ & Hplus & Hminus & _).
    pose proof (ParseUint_FormatUint i bitSize Hbits ltac:(lia)) as Hparse.
    rewrite Heq in *. apply ParseInt_unsigned; [done|done|done|done|lia].
Qed.

Lemma ParseInt_hexInt i bitSize :
  bitSize = 0 ∨ bitSize = 64 → - 2 ^ 63 ≤ i < 2 ^ 63 →
  ParseInt (hexInt i) 0 bitSize = (i, None).
Proof.
  intros Hbits Hi. unfold hexInt.
  assert (2 ^ 63 < maxUint64) by reflexivity.
  destruct (Z.ltb_spec i 0) as [Hneg|Hpos].
  - rewrite (ParseInt_negative _ bitSize (- i)); [f_equal; lia|done| |lia].
    apply ParseUint_hexUint; [done|lia].
  - pose proof (ParseUint_hexUint i bitSize Hbits ltac:(lia)) as Hparse.
    unfold hexUint in *. apply ParseInt_unsigned; [done|done|done|done|lia].
Qed.

(** C7: a value of type string, bool, int, uint, int64 or uint64, in
    the range of its type, is stored under an annotation key in its string
    form, decimal or hexadecimal with prefix for the integers; then
    [GetAnnotationObject] with no decoder and a target of the type of the
    value returns true and a nil error, leaves the value in the target
    and logs nothing.  Zero, the negative values of the signed types and
    the extremes of each range are covered. *)
Theorem GetAnnotationObject_roundtrip
    (Unmarshal : string → PodResourceRequirements →
                 PodResourceRequirements * option error)
    (c : cache.t) (p : pod) (key : string) (f : notation) (v : value)
    (target : object) :
  representable v →
  targetFor v target →
  Annotations p !! key = Some (encode f v) →
  GetAnnotationObject Unmarshal c p key target None
  = (c, objectOf v, true, None).
Proof.
  intros Hrange Htarget Hkey.
  unfold GetAnnotationObject, GetAnnotation. rewrite Hkey. cbn [negb].
  assert (defaultDecode Unmarshal (encode f v) target = (objectOf v, None))
    as ->; [|reflexivity].
  assert (2 ^ 64 - 1 = maxUint64) as Hmax by reflexivity.
  destruct v, target; try done; cbn [defaultDecode encode objectOf];
    cbn [representable] in Hrange.
  - destruct b; reflexivity.
  - change (2 ^ (IntSize - 1)) with (2 ^ 63) in Hrange.
    destruct f; [rewrite ParseInt_FormatInt|rewrite ParseInt_hexInt];
      try done; try (by left);
      change IntSize with 64; by rewrite wrapSigned_small.
  - change (2 ^ IntSize) with (2 ^ 64) in Hrange.
    destruct f; [rewrite ParseUint_FormatUint|rewrite ParseUint_hexUint];
      try (by left); try lia;
      change IntSize with 64; by rewrite wrapUnsigned_small by lia.
  - destruct f; [rewrite ParseInt_FormatInt|rewrite ParseInt_hexInt];
      try done; by right.
  - destruct f; [rewrite ParseUint_FormatUint|rewrite ParseUint_hexUint];
      try done; try (by right); lia.
Qed.

Lemma GetAnnotationObject_roundtrip_witness :
  GetAnnotationObject jsonUnmarshal sampleCache
    (mkPod "sandbox0" "" "web" "default" 0 ∅ {[ "depth" := "-0xff" ]} ""
       None "")
    "depth" (ObjInt64 7) None
  = (sampleCache, ObjInt64 (-255), true, None).
Proof.
  apply (GetAnnotationObject_roundtrip jsonUnmarshal sampleCache _ "depth"
           Hexadecimal (VInt64 (-255)) (ObjInt64 7)).
  - simpl. lia.
  - exact I.
  - reflexivity.
Defined.

(** ** From annotation text to QoS class *)

(** A pod constructed without the resource annotation is BestEffort. *)
Example unannotated_pod_is_BestEffort :
  classReturned (GetPodQOS (constructedPod ∅)) = Some PodQOSBestEffort.
Proof. vm_compute. reflexivity. Qed.

(** One container, requests cpu 100m and memory 64Mi, limits the same:
    Guaranteed. *)
Example annotated_pod_is_Guaranteed :
  classReturned
    (GetPodQOS
       (constructedPod {[ KeyResourceAnnotation := guaranteedAnnotation ]}))
  = Some PodQOSGuaranteed.
Proof. vm_compute. reflexivity. Qed.

(** The constructed pod reads the uid from its labels and the cgroup
    parent from the Linux section of the request. *)
Example constructed_pod_fields :
  Uid (constructedPod ∅) = "1234-abcd"
  ∧ CgroupParent (constructedPod ∅) = "/kubepods/pod1234"
  ∧ Name (constructedPod ∅) = "web"
  ∧ Namespace (constructedPod ∅) = "default".
Proof. vm_compute. repeat split. Qed.

(** * Further properties of the pod entity *)

(** ** Key listings *)

Lemma storeKey_loop {V : Type} (l : list (string * V)) (pre : list string)
    (extra : nat) :
  fold_left (λ a kv, storeKey a kv.1 kv.2) l
    (Done (pre ++ replicate (length l + extra) "", length pre))
  = Done (pre ++ l.*1 ++ replicate extra "", (length pre + length l)%nat).
Proof.
  revert pre. induction l as [|[k v] l IH]; intros pre; simpl.
  - by rewrite Nat.add_0_r.
  - assert ((length pre
             <? length (pre ++ "" :: replicate (length l + extra) ""))%nat
            = true) as ->.
    { apply Nat.ltb_lt. rewrite length_app. simpl. lia. }
    replace (<[length pre:=k]> (pre ++ "" :: replicate (length l + extra) ""))
      with ((pre ++ [k]) ++ replicate (length l + extra) "").
    2:{ replace (length pre) with (length pre + 0)%nat at 1 by lia.
        rewrite insert_app_r. simpl. by rewrite <- app_assoc. }
    replace (S (length pre)) with (length (pre ++ [k]))
      by (rewrite length_app; simpl; lia).
    rewrite IH, length_app. simpl. rewrite <- app_assoc. simpl.
    f_equal. f_equal. lia.
Qed.

(** The loop fills the slice with the keys in the order it meets them
    and never leaves its bounds. *)
Lemma listKeys_eq {V : Type} (m : gmap string V) :
  listKeys m = Done (map_to_list m).*1.
Proof.
  unfold listKeys, range.
  pose proof (storeKey_loop (map_to_list m) [] 0) as H.
  rewrite Nat.add_0_r, length_map_to_list in H. simpl in H.
  rewrite H. by rewrite app_nil_r.
Qed.

Lemma listKeys_spec {V : Type} (m : gmap string V) :
  ∃ keys, listKeys m = Done keys
    ∧ length keys = size m
    ∧ NoDup keys
    ∧ ∀ k, k ∈ keys ↔ is_Some (m !! k).
Proof.
  exists (map_to_list m).*1. split; [apply listKeys_eq|].
  split; [by rewrite length_fmap, length_map_to_list|].
  split; [apply NoDup_fst_map_to_list|].
  intros k. rewrite list_elem_of_fmap. split.
  - intros ([k' v] & -> & Hin). apply elem_of_map_to_list in Hin. by eexists.
  - intros [v Hv]. exists (k, v). split; [done|].
    by apply elem_of_map_to_list.
Qed.

(** X1: [GetLabelKeys] never panics and returns every label key
    exactly once: as many keys as the pod has labels, no key twice, and a
    key is listed exactly when [GetLabel] finds it. *)
Theorem GetLabelKeys_lists_labels (p : pod) :
  ∃ keys, GetLabelKeys p = Done keys
    ∧ length keys = size (Labels p)
    ∧ NoDup keys
    ∧ ∀ k, k ∈ keys ↔ (GetLabel p k).2 = true.
Proof.
  destruct (listKeys_spec (Labels p)) as (keys & Hrun & Hlen & Hnd & Hin).
  exists keys. repeat split; try done.
  - intros Hk. apply Hin in Hk as [v Hv]. unfold GetLabel. by rewrite Hv.
  - intros Hk. apply Hin. unfold GetLabel in Hk.
    destruct (Labels p !! k); [by eexists|done].
Qed.

(** X2: [GetAnnotationKeys] never panics and returns every annotation
    key exactly once; a key is listed exactly when [GetAnnotation] finds
    it. *)
Theorem GetAnnotationKeys_lists_annotations (p : pod) :
  ∃ keys, GetAnnotationKeys p = Done keys
    ∧ length keys = size (Annotations p)
    ∧ NoDup keys
    ∧ ∀ k, k ∈ keys ↔ (GetAnnotation p k).2 = true.
Proof.
  destruct (listKeys_spec (Annotations p))
    as (keys & Hrun & Hlen & Hnd & Hin).
  exists keys. repeat split; try done.
  - intros Hk. apply Hin in Hk as [v Hv]. unfold GetAnnotation.
    by rewrite Hv.
  - intros Hk. apply Hin. unfold GetAnnotation in Hk.
    destruct (Annotations p !! k); [by eexists|done].
Qed.

(** ** Annotation decoding: presence, logging and failures *)

Section AnnotationObject.
Variable Unmarshal :
  string → PodResourceRequirements → PodResourceRequirements * option error.

(** X3: the flag returned by [GetAnnotationObject] tells whether the
    key is present, not whether decoding succeeded; for a missing key the
    target and the cache are left as they were and the error is nil,
    whatever decoder is passed; and the containers of the cache are never
    touched. *)
Theorem GetAnnotationObject_reports_presence (c : cache.t) (p : pod)
    (key : string) (obj : object) (decode : option decoder) :
  ((GetAnnotationObject Unmarshal c p key obj decode).1.2 = true
   ↔ is_Some (Annotations p !! key))
  ∧ (Annotations p !! key = None →
     GetAnnotationObject Unmarshal c p key obj decode = (c, obj, false, None))
  ∧ cache.Containers (GetAnnotationObject Unmarshal c p key obj decode).1.1.1
    = cache.Containers c.
Proof.
  unfold GetAnnotationObject, GetAnnotation.
  destruct (Annotations p !! key) as [value|]; cbn [negb].
  - destruct decode as [d|].
    + destruct (d value obj) as [obj' err]. simpl.
      split; [split; [by eauto|done]|]. split; [done|done].
    + destruct (defaultDecode Unmarshal value obj) as [obj' err].
      destruct err; simpl; (split; [split; [by eauto|done]|]);
        (split; [done|done]).
  - simpl. split; [split; [done|by intros [? ?]]|]. done.
Qed.

(** X4: a decoding error is logged exactly when the built-in decoders
    ran: then one entry, naming key, value and error, is appended to the
    log.  With a decoder of the caller the result is the decoder's and
    nothing is logged, failure or not; without an error nothing is
    logged. *)
Theorem GetAnnotationObject_logging (c : cache.t) (p : pod)
    (key value : string) (obj : object) (decode : option decoder) :
  Annotations p !! key = Some value →
  match decode with
  | Some d =>
      GetAnnotationObject Unmarshal c p key obj decode
      = (c, (d value obj).1, true, (d value obj).2)
  | None =>
      match (GetAnnotationObject Unmarshal c p key obj decode).2 with
      | Some e =>
          cache.Log (GetAnnotationObject Unmarshal c p key obj decode).1.1.1
          = cache.Log c
            ++ [LogError "failed to decode annotation %s (%s): %v"
                  key value e]
      | None =>
          (GetAnnotationObject Unmarshal c p key obj decode).1.1.1 = c
      end
  end.
Proof.
  intros Hkey. unfold GetAnnotationObject, GetAnnotation. rewrite Hkey.
  cbn [negb]. destruct decode as [d|].
  - by destruct (d value obj).
  - destruct (defaultDecode Unmarshal value obj) as [obj' [e|]]; done.
Qed.
End AnnotationObject.

Lemma GetAnnotationObject_logging_witness :
  GetAnnotationObject jsonUnmarshal sampleCache (annotatedPod "depth" "12")
    "depth" (ObjInt 0) (Some failingDecoder)
  = (sampleCache, ObjString "partial", true, Some (DecoderError "refused")).
Proof.
  apply (GetAnnotationObject_logging jsonUnmarshal sampleCache
           (annotatedPod "depth" "12") "depth" "12" (ObjInt 0)
           (Some failingDecoder)).
  reflexivity.
Defined.

(** What the [strconv] parsers return beside an error. *)
Lemma digitsLoop_error base maxVal cutoff base0 s n us v e :
  digitsLoop base maxVal cutoff base0 s n us = DigitsError v e →
  (v = 0 ∧ e = ErrSyntax) ∨ (v = maxVal ∧ e = ErrRange).
Proof.
  revert n us. induction s as [|ch rest IH]; intros n us; cbn [digitsLoop].
  - done.
  - destruct ((byteZ ch =? 95) && base0); [by apply IH|].
    destruct (digitValue (byteZ ch)) as [d|]; [|intros [= <- <-]; by left].
    destruct (d >=? base); [intros [= <- <-]; by left|].
    destruct (n >=? cutoff); [intros [= <- <-]; by right|].
    destruct (_ || _); [intros [= <- <-]; by right|by apply IH].
Qed.

Lemma ParseUint_error_value s bitSize v e :
  bitSize = 0 ∨ bitSize = 64 →
  ParseUint s 0 bitSize = (v, Some e) →
  (v = 0 ∧ ∃ kind, e = NumError "ParseUint" s kind ∧ kind ≠ ErrRange)
  ∨ (v = maxUint64 ∧ e = NumError "ParseUint" s ErrRange).
Proof.
  intros Hbits. destruct (String.eqb_spec s "") as [->|Hne].
  { destruct Hbits as [-> | ->]; intros [= <- <-]; left;
      (split; [done|]); by exists ErrSyntax. }
  rewrite ParseUint_unfold by done.
  destruct (digitsLoop _ _ _ _ _ _ _) as [v' e'|n us] eqn:Hloop.
  - apply digitsLoop_error in Hloop as [[-> ->]|[-> ->]].
    + intros [= <- <-]. left. split; [done|]. by exists ErrSyntax.
    + intros [= <- <-]. by right.
  - destruct (us && negb (underscoreOK s)); [|done].
    intros [= <- <-]. left. split; [done|]. by exists ErrSyntax.
Qed.

Lemma ParseInt_error_value s bitSize v e :
  bitSize = 0 ∨ bitSize = 64 →
  ParseInt s 0 bitSize = (v, Some e) →
  v = 0 ∨ v = 2 ^ 63 - 1 ∨ v = - 2 ^ 63.
Proof.
  intros Hbits. unfold ParseInt.
  destruct (String.eqb s ""); [intros [= <- _]; by left|].
  destruct (match s with
            | "" => (false, s)
            | String ch rest =>
                if byteZ ch =? 43 then (false, rest)
                else if byteZ ch =? 45 then (true, rest) else (false, s)
            end) as [neg s'].
  destruct (ParseUint s' 0 bitSize) as [un err].
  rewrite (ParseInt_cutoff _ Hbits).
  destruct (match err with
            | Some (NumError _ _ ErrRange) => None
            | Some (NumError _ _ e0) => Some (NumError "ParseInt" s e0)
            | Some e0 => Some e0
            | None => None
            end); [intros [= <- _]; by left|].
  destruct (negb neg && (un >=? 2 ^ 63)).
  { intros [= <- _]. right. left. reflexivity. }
  destruct (neg && (un >? 2 ^ 63)).
  { intros [= <- _]. right. right. reflexivity. }
  done.
Qed.

(** Picks the element of a literal list that the goal's value computes
    to. *)
Ltac pick_fallback :=
  repeat first
    [ apply elem_of_cons; left; reflexivity
    | apply elem_of_cons; right ].

Section DecodeFailures.
Variable Unmarshal :
  string → PodResourceRequirements → PodResourceRequirements * option error.

(** X5: when a built-in decoder fails, the target does not keep the
    value it had: a bool target is set to false, a signed integer target
    to 0 or to the nearest bound of int64, an unsigned one to 0 or to the
    largest uint64; a string target never fails. *)
Theorem failed_decode_overwrites_target (c : cache.t) (p : pod)
    (key value : string) (target : object) :
  Annotations p !! key = Some value →
  isScalarTarget target = true →
  (GetAnnotationObject Unmarshal c p key target None).2 ≠ None →
  (GetAnnotationObject Unmarshal c p key target None).1.1.2
  ∈ fallbackTargets target.
Proof.
  intros Hkey Hscalar. unfold GetAnnotationObject, GetAnnotation.
  rewrite Hkey. cbn [negb].
  destruct (defaultDecode Unmarshal value target) as [obj' err] eqn:Hdec.
  simpl. intros Herr. destruct err as [e|]; [clear Herr|done].
  destruct target; try done; cbn [defaultDecode] in Hdec;
    cbn [fallbackTargets].
  - destruct (ParseBool value) as [b [e'|]] eqn:Hb; [|by simplify_eq].
    unfold ParseBool in Hb. repeat case_match; simplify_eq.
    pick_fallback.
  - destruct (ParseInt value 0 0) as [n [e'|]] eqn:Hp; [|by simplify_eq].
    apply ParseInt_error_value in Hp; [|by left].
    destruct Hp as [->|[->| ->]]; simplify_eq; pick_fallback.
  - destruct (ParseUint value 0 0) as [n [e'|]] eqn:Hp; [|by simplify_eq].
    apply ParseUint_error_value in Hp; [|by left].
    destruct Hp as [[-> _]|[-> _]]; simplify_eq; pick_fallback.
  - destruct (ParseInt value 0 64) as [n [e'|]] eqn:Hp; [|by simplify_eq].
    apply ParseInt_error_value in Hp; [|by right].
    destruct Hp as [->|[->| ->]]; simplify_eq; pick_fallback.
  - destruct (ParseUint value 0 64) as [n [e'|]] eqn:Hp; [|by simplify_eq].
    apply ParseUint_error_value in Hp; [|by right].
    destruct Hp as [[-> _]|[-> _]]; simplify_eq; pick_fallback.
Qed.
End DecodeFailures.

Lemma failed_decode_overwrites_target_witness :
  (GetAnnotationObject jsonUnmarshal sampleCache (annotatedPod "depth" "deep")
     "depth" (ObjInt64 7) None).1.1.2
  ∈ [ObjInt64 0; ObjInt64 (2 ^ 63 - 1); ObjInt64 (- 2 ^ 63)].
Proof.
  apply (failed_decode_overwrites_target jsonUnmarshal sampleCache
           (annotatedPod "depth" "deep") "depth" "deep" (ObjInt64 7)).
  - reflexivity.
  - reflexivity.
  - vm_compute. discriminate.
Defined.

Lemma digitsLoop_minus base maxVal cutoff base0 rest n us :
  digitsLoop base maxVal cutoff base0 (String "-" rest) n us
  = DigitsError 0 ErrSyntax.
Proof. reflexivity. Qed.

Lemma ParseUint_minus rest bitSize :
  bitSize = 0 ∨ bitSize = 64 →
  ParseUint (String "-" rest) 0 bitSize
  = (0, Some (NumError "ParseUint" (String "-" rest) ErrSyntax)).
Proof.
  intros Hbits. rewrite ParseUint_unfold by done.
  rewrite detectBase_decimal by reflexivity. cbn [fst snd].
  by rewrite digitsLoop_minus.
Qed.

(** X6: an unsigned target never accepts a value that starts with a
    minus sign: decoding into a uint or a uint64 fails with a syntax
    error, sets the target to 0 and logs the error. *)
Theorem unsigned_target_rejects_minus
    (Unmarshal : string → PodResourceRequirements →
                 PodResourceRequirements * option error)
    (c : cache.t) (p : pod) (key rest : string) (old : Z) :
  Annotations p !! key = Some (String "-" rest) →
  GetAnnotationObject Unmarshal c p key (ObjUint64 old) None
  = (cache.Error c "failed to decode annotation %s (%s): %v" key
       (String "-" rest) (NumError "ParseUint" (String "-" rest) ErrSyntax),
     ObjUint64 0, true,
     Some (NumError "ParseUint" (String "-" rest) ErrSyntax))
  ∧ GetAnnotationObject Unmarshal c p key (ObjUint old) None
    = (cache.Error c "failed to decode annotation %s (%s): %v" key
         (String "-" rest) (NumError "ParseUint" (String "-" rest) ErrSyntax),
       ObjUint 0, true,
       Some (NumError "ParseUint" (String "-" rest) ErrSyntax)).
Proof.
  intros Hkey. unfold GetAnnotationObject, GetAnnotation. rewrite Hkey.
  cbn [negb defaultDecode].
  rewrite (ParseUint_minus rest 64) by (by right).
  rewrite (ParseUint_minus rest 0) by (by left).
  split; reflexivity.
Qed.

Lemma unsigned_target_rejects_minus_witness :
  GetAnnotationObject jsonUnmarshal sampleCache (annotatedPod "depth" "-5")
    "depth" (ObjUint64 9) None
  = (cache.Error sampleCache "failed to decode annotation %s (%s): %v"
       "depth" "-5" (NumError "ParseUint" "-5" ErrSyntax),
     ObjUint64 0, true, Some (NumError "ParseUint" "-5" ErrSyntax)).
Proof.
  apply (unsigned_target_rejects_minus jsonUnmarshal sampleCache
           (annotatedPod "depth" "-5") "depth" "5" 9).
  reflexivity.
Defined.

Lemma ParseInt_overflow c rest bitSize un :
  (byteZ c =? 43) = false → (byteZ c =? 45) = false →
  bitSize = 0 ∨ bitSize = 64 →
  ParseUint (String c rest) 0 bitSize = (un, None) →
  2 ^ 63 ≤ un →
  ParseInt (String c rest) 0 bitSize
  = (2 ^ 63 - 1, Some (NumError "ParseInt" (String c rest) ErrRange)).
Proof.
  intros Hplus Hminus Hbits Hparse Hun. unfold ParseInt.
  cbn [String.eqb]. rewrite Hplus, Hminus, Hparse.
  rewrite (ParseInt_cutoff _ Hbits).
  assert ((un >=? 2 ^ 63) = true) as -> by lia.
  reflexivity.
Qed.

Lemma ParseInt_underflow rest bitSize un :
  bitSize = 0 ∨ bitSize = 64 →
  ParseUint rest 0 bitSize = (un, None) →
  2 ^ 63 < un →
  ParseInt (String "-" rest) 0 bitSize
  = (- 2 ^ 63, Some (NumError "ParseInt" (String "-" rest) ErrRange)).
Proof.
  intros Hbits Hparse Hun. unfold ParseInt.
  cbn [String.eqb]. change (byteZ "-" =? 43) with false.
  change (byteZ "-" =? 45) with true. cbv iota. rewrite Hparse.
  rewrite (ParseInt_cutoff _ Hbits).
  assert ((un >? 2 ^ 63) = true) as -> by lia.
  reflexivity.
Qed.

(** X7: an int64 target clamps what does not fit: the decimal form of
    a number from 2^63 up to the largest uint64 is decoded to the largest
    int64, and with a minus sign before a number above 2^63 to the
    smallest; both return a range error, which is logged. *)
Theorem int64_target_clamps_out_of_range
    (Unmarshal : string → PodResourceRequirements →
                 PodResourceRequirements * option error)
    (c : cache.t) (p : pod) (key : string) (n old : Z) :
  n ≤ maxUint64 →
  (2 ^ 63 ≤ n →
   Annotations p !! key = Some (FormatUint n 10) →
   GetAnnotationObject Unmarshal c p key (ObjInt64 old) None
   = (cache.Error c "failed to decode annotation %s (%s): %v" key
        (FormatUint n 10) (NumError "ParseInt" (FormatUint n 10) ErrRange),
      ObjInt64 (2 ^ 63 - 1), true,
      Some (NumError "ParseInt" (FormatUint n 10) ErrRange)))
  ∧ (2 ^ 63 < n →
     Annotations p !! key = Some (String "-" (FormatUint n 10)) →
     GetAnnotationObject Unmarshal c p key (ObjInt64 old) None
     = (cache.Error c "failed to decode annotation %s (%s): %v" key
          (String "-" (FormatUint n 10))
          (NumError "ParseInt" (String "-" (FormatUint n 10)) ErrRange),
        ObjInt64 (- 2 ^ 63), true,
        Some (NumError "ParseInt" (String "-" (FormatUint n 10)) ErrRange))).
Proof.
  intros Hmax.
  assert (0 < 2 ^ 63) by reflexivity.
  split; intros Hn Hkey; unfold GetAnnotationObject, GetAnnotation;
    rewrite Hkey; cbn [negb defaultDecode].
  - destruct (FormatUint_head 10 n ltac:(lia) ltac:(lia))
      as (d & rest & Heq & Hd & _).
    destruct (digitChar_read d ltac:(lia)) as (_ & _ & Hplus & Hminus & _).
    pose proof (ParseUint_FormatUint n 64 ltac:(by right) ltac:(lia))
      as Hparse.
    rewrite Heq in *.
    by rewrite (ParseInt_overflow _ _ 64 n Hplus Hminus ltac:(by right)
                  Hparse Hn).
  - pose proof (ParseUint_FormatUint n 64 ltac:(by right) ltac:(lia))
      as Hparse.
    by rewrite (ParseInt_underflow _ 64 n ltac:(by right) Hparse Hn).
Qed.

Lemma int64_target_clamps_out_of_range_witness :
  GetAnnotationObject jsonUnmarshal sampleCache
    (annotatedPod "depth" "9223372036854775808") "depth" (ObjInt64 1) None
  = (cache.Error sampleCache "failed to decode annotation %s (%s): %v"
       "depth" "9223372036854775808"
       (NumError "ParseInt" "9223372036854775808" ErrRange),
     ObjInt64 (2 ^ 63 - 1), true,
     Some (NumError "ParseInt" "9223372036854775808" ErrRange)).
Proof.
  destruct (int64_target_clamps_out_of_range jsonUnmarshal sampleCache
              (annotatedPod "depth" "9223372036854775808") "depth"
              (2 ^ 63) 1) as [Hover _].
  - vm_compute. discriminate.
  - apply Hover; [lia|reflexivity].
Defined.

(** ** What the constructors assign, keep and log *)

Section Constructed.
Variable Unmarshal :
  string → PodResourceRequirements → PodResourceRequirements * option error.

Lemma finishConstruction_eq c p :
  finishConstruction Unmarshal c p
  = (cache.mk (cache.Containers c)
       (cache.Log c ++ constructionLog Unmarshal p),
     finishedPod Unmarshal p).
Proof.
  unfold finishConstruction. rewrite parseResourceAnnotations_eq.
  unfold extractLabels, GetLabel, finishedPod, constructionLog,
    decodedResources.
  destruct (Annotations p !! KeyResourceAnnotation) as [value|]; simpl.
  - destruct (Unmarshal value zeroResources) as [r [e|]]; simpl;
      destruct (Labels p !! KubernetesPodUIDLabel); simpl;
      unfold cache.Warn, cache.Error; simpl;
      rewrite <- ?app_assoc, ?app_nil_r; try done; by destruct c.
  - destruct (Labels p !! KubernetesPodUIDLabel); simpl;
      unfold cache.Warn; simpl; rewrite ?app_nil_r; try done; by destruct c.
Qed.

(** X8: a successful [fromRunRequest] takes name and namespace from
    the metadata, sets the state to Ready, takes labels and annotations
    from the config, the cgroup parent from the Linux section (empty
    without one) and the uid from the uid label (empty without it); the
    id and the stored QoS class of the pod are kept. *)
Theorem fromRunRequest_fields (c : cache.t) (p : pod)
    (req : cri.RunPodSandboxRequest.t) (cfg : cri.PodSandboxConfig.t)
    (meta : cri.PodSandboxMetadata.t) :
  cri.RunPodSandboxRequest.Config req = Some cfg →
  cri.PodSandboxConfig.Metadata cfg = Some meta →
  (fromRunRequest Unmarshal c p req).2 = None
  ∧ GetId (fromRunRequest Unmarshal c p req).1.2 = GetId p
  ∧ GetName (fromRunRequest Unmarshal c p req).1.2
    = cri.PodSandboxMetadata.Name meta
  ∧ GetNamespace (fromRunRequest Unmarshal c p req).1.2
    = cri.PodSandboxMetadata.Namespace meta
  ∧ GetState (fromRunRequest Unmarshal c p req).1.2 = PodStateReady
  ∧ Labels (fromRunRequest Unmarshal c p req).1.2
    = cri.PodSandboxConfig.Labels cfg
  ∧ Annotations (fromRunRequest Unmarshal c p req).1.2
    = cri.PodSandboxConfig.Annotations cfg
  ∧ GetCgroupParentDir (fromRunRequest Unmarshal c p req).1.2
    = match cri.PodSandboxConfig.Linux cfg with
      | Some linux => cri.LinuxPodSandboxConfig.CgroupParent linux
      | None => ""
      end
  ∧ GetUid (fromRunRequest Unmarshal c p req).1.2
    = default "" (cri.PodSandboxConfig.Labels cfg !! KubernetesPodUIDLabel)
  ∧ QOSClass (fromRunRequest Unmarshal c p req).1.2 = QOSClass p.
Proof.
  intros Hc Hm.
  rewrite (fromRunRequest_complete Unmarshal c p req cfg meta Hc Hm).
  rewrite finishConstruction_eq. simpl. done.
Qed.

(** X9: a successful [fromListResponse] takes name and namespace from
    the metadata, state, labels and annotations from the entry and the uid
    from the uid label; it assigns no cgroup parent, so the one the pod
    had stays, as do its id and its stored QoS class. *)
Theorem fromListResponse_fields (c : cache.t) (p : pod)
    (sandbox : cri.PodSandbox.t) (meta : cri.PodSandboxMetadata.t) :
  cri.PodSandbox.Metadata sandbox = Some meta →
  (fromListResponse Unmarshal c p sandbox).2 = None
  ∧ GetId (fromListResponse Unmarshal c p sandbox).1.2 = GetId p
  ∧ GetName (fromListResponse Unmarshal c p sandbox).1.2
    = cri.PodSandboxMetadata.Name meta
  ∧ GetNamespace (fromListResponse Unmarshal c p sandbox).1.2
    = cri.PodSandboxMetadata.Namespace meta
  ∧ GetState (fromListResponse Unmarshal c p sandbox).1.2
    = cri.PodSandbox.State sandbox
  ∧ Labels (fromListResponse Unmarshal c p sandbox).1.2
    = cri.PodSandbox.Labels sandbox
  ∧ Annotations (fromListResponse Unmarshal c p sandbox).1.2
    = cri.PodSandbox.Annotations sandbox
  ∧ GetCgroupParentDir (fromListResponse Unmarshal c p sandbox).1.2
    = GetCgroupParentDir p
  ∧ GetUid (fromListResponse Unmarshal c p sandbox).1.2
    = default "" (cri.PodSandbox.Labels sandbox !! KubernetesPodUIDLabel)
  ∧ QOSClass (fromListResponse Unmarshal c p sandbox).1.2 = QOSClass p.
Proof.
  intros Hm.
  rewrite (fromListResponse_complete Unmarshal c p sandbox meta Hm).
  rewrite finishConstruction_eq. simpl. done.
Qed.

(** X10: construction never touches the containers of the cache and
    only appends to its log: an error record exactly when the resource
    annotation is present and its decoding reports an error, then a
    warning exactly when the uid label is missing; a failed construction
    logs nothing. *)
Theorem construction_log (c : cache.t) (p : pod)
    (req : cri.RunPodSandboxRequest.t) (sandbox : cri.PodSandbox.t) :
  cache.Containers (fromRunRequest Unmarshal c p req).1.1
  = cache.Containers c
  ∧ cache.Containers (fromListResponse Unmarshal c p sandbox).1.1
    = cache.Containers c
  ∧ cache.Log (fromRunRequest Unmarshal c p req).1.1
    = cache.Log c
      ++ match (fromRunRequest Unmarshal c p req).2 with
         | Some _ => []
         | None =>
             constructionLog Unmarshal (fromRunRequest Unmarshal c p req).1.2
         end
  ∧ cache.Log (fromListResponse Unmarshal c p sandbox).1.1
    = cache.Log c
      ++ match (fromListResponse Unmarshal c p sandbox).2 with
         | Some _ => []
         | None =>
             constructionLog Unmarshal
               (fromListResponse Unmarshal c p sandbox).1.2
         end.
Proof.
  assert (∀ q, constructionLog Unmarshal (finishedPod Unmarshal q)
               = constructionLog Unmarshal q) as Hlog by done.
  destruct (runRequest_complete_or_not req) as [(cfg & meta & Hc & Hm)|Hno];
    [rewrite (fromRunRequest_complete Unmarshal c p req cfg meta Hc Hm),
       finishConstruction_eq
    |apply (fromRunRequest_incomplete Unmarshal c p req) in Hno
       as [format ->]];
    (destruct (cri.PodSandbox.Metadata sandbox) as [meta'|] eqn:Hm';
     [rewrite (fromListResponse_complete Unmarshal c p sandbox meta' Hm'),
        finishConstruction_eq
     |unfold fromListResponse; rewrite Hm']);
    simpl; rewrite ?Hlog, ?app_nil_r; done.
Qed.

(** X11: constructing a pod again from the same message, whatever the
    cache has become, gives the same pod: replaying a run request or a
    list entry changes nothing in the pod. *)
Theorem construction_replay (c c' : cache.t) (p : pod)
    (req : cri.RunPodSandboxRequest.t) (sandbox : cri.PodSandbox.t) :
  (fromRunRequest Unmarshal c'
     (fromRunRequest Unmarshal c p req).1.2 req).1.2
  = (fromRunRequest Unmarshal c p req).1.2
  ∧ (fromListResponse Unmarshal c'
       (fromListResponse Unmarshal c p sandbox).1.2 sandbox).1.2
    = (fromListResponse Unmarshal c p sandbox).1.2.
Proof.
  split.
  - destruct (runRequest_complete_or_not req) as [(cfg & meta & Hc & Hm)|Hno].
    + rewrite !(fromRunRequest_complete Unmarshal _ _ req cfg meta Hc Hm).
      rewrite !finishConstruction_eq. reflexivity.
    + destruct (fromRunRequest_incomplete Unmarshal c p req Hno)
        as [format ->]. simpl.
      destruct (fromRunRequest_incomplete Unmarshal c' p req Hno)
        as [format' ->]. done.
  - destruct (cri.PodSandbox.Metadata sandbox) as [meta|] eqn:Hm.
    + rewrite !(fromListResponse_complete Unmarshal _ _ sandbox meta Hm).
      rewrite !finishConstruction_eq. reflexivity.
    + unfold fromListResponse. rewrite Hm. simpl. by rewrite ?Hm.
Qed.

Lemma classify_zeroResources :
  classify (aggregate zeroResources) = PodQOSBestEffort.
Proof. apply classify_BestEffort. by vm_compute. Qed.

(** X12: a pod whose class is not yet computed and that is
    constructed from a message without the resource annotation is
    classified BestEffort, whatever the JSON decoder. *)
Theorem unannotated_construction_is_BestEffort (c : cache.t) (p : pod)
    (req : cri.RunPodSandboxRequest.t) (sandbox : cri.PodSandbox.t) :
  QOSClass p = "" →
  (runRequestComplete req →
   Annotations (fromRunRequest Unmarshal c p req).1.2
     !! KeyResourceAnnotation = None →
   classReturned (GetPodQOS (fromRunRequest Unmarshal c p req).1.2)
   = Some PodQOSBestEffort)
  ∧ ((∃ meta, cri.PodSandbox.Metadata sandbox = Some meta) →
     Annotations (fromListResponse Unmarshal c p sandbox).1.2
       !! KeyResourceAnnotation = None →
     classReturned (GetPodQOS (fromListResponse Unmarshal c p sandbox).1.2)
     = Some PodQOSBestEffort).
Proof.
  intros Hq.
  assert (∀ q, QOSClass q = "" →
               Annotations q !! KeyResourceAnnotation = None →
               classReturned (GetPodQOS (finishedPod Unmarshal q))
               = Some PodQOSBestEffort) as Hfin.
  { intros q Hq' Ha.
    rewrite (GetPodQOS_fresh (finishedPod Unmarshal q) zeroResources).
    - simpl. by rewrite classify_zeroResources.
    - done.
    - simpl. unfold decodedResources. by rewrite Ha. }
  split.
  - intros (cfg & meta & Hc & Hm).
    rewrite (fromRunRequest_complete Unmarshal c p req cfg meta Hc Hm).
    rewrite finishConstruction_eq. simpl. intros Ha. by apply Hfin.
  - intros [meta Hm].
    rewrite (fromListResponse_complete Unmarshal c p sandbox meta Hm).
    rewrite finishConstruction_eq. simpl. intros Ha. by apply Hfin.
Qed.
End Constructed.

Lemma fromRunRequest_fields_witness :
  GetCgroupParentDir
    (fromRunRequest jsonUnmarshal sampleCache (newPod "sandbox0")
       bareRequest).1.2 = ""
  ∧ GetUid
      (fromRunRequest jsonUnmarshal sampleCache (newPod "sandbox0")
         bareRequest).1.2 = "".
Proof.
  destruct (fromRunRequest_fields jsonUnmarshal sampleCache
              (newPod "sandbox0") bareRequest
              (cri.PodSandboxConfig.mk (Some sampleMetadata) "" ∅ ∅ None)
              sampleMetadata eq_refl eq_refl)
    as (_ & _ & _ & _ & _ & _ & _ & Hcg & Huid & _).
  split; [exact Hcg|exact Huid].
Defined.

Lemma fromListResponse_fields_witness :
  GetState
    (fromListResponse jsonUnmarshal sampleCache
       (samplePod None PodQOSBurstable)
       (sampleSandbox PodStateNotReady ∅)).1.2 = PodStateNotReady
  ∧ QOSClass
      (fromListResponse jsonUnmarshal sampleCache
         (samplePod None PodQOSBurstable)
         (sampleSandbox PodStateNotReady ∅)).1.2 = PodQOSBurstable.
Proof.
  destruct (fromListResponse_fields jsonUnmarshal sampleCache
              (samplePod None PodQOSBurstable)
              (sampleSandbox PodStateNotReady ∅) sampleMetadata eq_refl)
    as (_ & _ & _ & _ & Hstate & _ & _ & _ & _ & Hqos).
  split; [exact Hstate|exact Hqos].
Defined.

Lemma unannotated_construction_is_BestEffort_witness :
  classReturned
    (GetPodQOS
       (fromRunRequest jsonUnmarshal sampleCache (newPod "sandbox0")
          bareRequest).1.2)
  = Some PodQOSBestEffort.
Proof.
  destruct (unannotated_construction_is_BestEffort jsonUnmarshal sampleCache
              (newPod "sandbox0") bareRequest (sampleSandbox 0 ∅) eq_refl)
    as [Hrun _].
  apply Hrun.
  - unfold runRequestComplete. simpl. eauto.
  - reflexivity.
Defined.

(** ** Container queries on a pod with a resource model *)

(** X13: on a pod with a resource model, [GetContainers] returns
    exactly the containers of the cache whose id is a key of
    [Resources.Containers], and [GetInitContainers] those whose id is a key
    of [Resources.InitContainers]; neither returns anything that is not in
    the cache, nor more containers than the cache holds. *)
Theorem container_queries_membership (c : cache.t) (p : pod)
    (r : PodResourceRequirements) :
  Resources p = Some r →
  (∀ ctr, ctr ∈ GetContainers c p
     ↔ (∃ key, cache.Containers c !! key = Some ctr)
       ∧ is_Some (Containers r !! container.Id ctr))
  ∧ (∀ ctr, ctr ∈ GetInitContainers c p
       ↔ (∃ key, cache.Containers c !! key = Some ctr)
         ∧ is_Some (InitContainers r !! container.Id ctr))
  ∧ (length (GetContainers c p) ≤ size (cache.Containers c))%nat
  ∧ (length (GetInitContainers c p) ≤ size (cache.Containers c))%nat.
Proof.
  intros Hr.
  rewrite (GetContainers_model c p r Hr), (GetInitContainers_model c p r Hr).
  unfold containersIn.
  assert (∀ ctr, ctr ∈ (map_to_list (cache.Containers c)).*2
                 ↔ ∃ key, cache.Containers c !! key = Some ctr) as Hin.
  { intros ctr. rewrite list_elem_of_fmap. split.
    - intros ([key ctr'] & -> & H). exists key.
      by apply elem_of_map_to_list.
    - intros [key H]. exists (key, ctr). split; [done|].
      by apply elem_of_map_to_list. }
  assert (length (map_to_list (cache.Containers c)).*2
          = size (cache.Containers c)) as Hlen
    by (by rewrite length_fmap, length_map_to_list).
  split; [|split; [|split]].
  - intros ctr. rewrite list_elem_of_filter, Hin. tauto.
  - intros ctr. rewrite list_elem_of_filter, Hin. tauto.
  - rewrite <- Hlen. apply length_filter.
  - rewrite <- Hlen. apply length_filter.
Qed.

Lemma container_queries_membership_witness :
  container.mk "c0" "sandbox0"
  ∈ GetContainers sampleCache (samplePod (Some guaranteedResources) "")
  ∧ container.mk "c1" "sandbox1"
    ∉ GetContainers sampleCache (samplePod (Some guaranteedResources) "").
Proof.
  destruct (container_queries_membership sampleCache
              (samplePod (Some guaranteedResources) "") guaranteedResources
              eq_refl) as (Hin & _).
  split.
  - apply Hin. split; [by exists "c0"|]. by vm_compute; eauto.
  - intros H. apply Hin in H as [_ [x Hx]]. vm_compute in Hx. discriminate.
Defined.

(** ** The class in terms of what the containers declare *)

Lemma containersTotal_ge sel n cs id c :
  (id, c) ∈ cs → positivePart (sel c !! n) ≤ containersTotal sel n cs.
Proof.
  induction cs as [|[id' c'] cs IH]; simpl.
  - intros H. by apply elem_of_nil in H.
  - pose proof (containersTotal_nonneg sel n cs).
    pose proof (positivePart_nonneg (sel c' !! n)).
    intros [[= <- <-]|Hin]%elem_of_cons; [lia|].
    specialize (IH Hin). lia.
Qed.

Lemma containersTotal_pos sel n cs :
  0 < containersTotal sel n cs
  ↔ ∃ id c, (id, c) ∈ cs ∧ 0 < positivePart (sel c !! n).
Proof.
  split.
  - induction cs as [|[id c] cs IH]; simpl; [lia|]. intros H.
    destruct (Z.ltb_spec 0 (positivePart (sel c !! n))) as [Hpos|Hle].
    + exists id, c. split; [apply elem_of_cons; by left|done].
    + pose proof (positivePart_nonneg (sel c !! n)).
      destruct IH as (id' & c' & Hin & Hp); [lia|].
      exists id', c'. split; [apply elem_of_cons; by right|done].
  - intros (id & c & Hin & Hp).
    pose proof (containersTotal_ge sel n cs id c Hin). lia.
Qed.

Lemma podTotal_pos sel r n :
  0 < podTotal sel r n
  ↔ ∃ id c q, Containers r !! id = Some c ∧ sel c !! n = Some q ∧ 0 < q.
Proof.
  unfold podTotal. rewrite containersTotal_pos. split.
  - intros (id & c & Hin & Hp). apply elem_of_map_to_list in Hin.
    apply positivePart_pos in Hp as (q & Hq & Hpos). by exists id, c, q.
  - intros (id & c & q & Hc & Hq & Hpos). exists id, c.
    split; [by apply elem_of_map_to_list|].
    apply positivePart_pos. by exists q.
Qed.

Lemma aggregated_empty_iff sel r :
  aggregated sel r = ∅
  ↔ ∀ n, n = ResourceCPU ∨ n = ResourceMemory → podTotal sel r n ≤ 0.
Proof.
  split.
  - intros He n Hn.
    pose proof (aggregated_lookup sel r n) as Hl.
    rewrite He, lookup_empty in Hl. unfold expectedEntry in Hl.
    apply isSupported_spec in Hn. rewrite Hn in Hl. simpl in Hl.
    destruct (Z.ltb_spec 0 (podTotal sel r n)); [done|lia].
  - intros H. apply map_eq. intros n.
    rewrite aggregated_lookup, lookup_empty. unfold expectedEntry.
    destruct (isSupportedQoSComputeResource n) eqn:Es; [|done].
    apply isSupported_spec in Es. specialize (H n Es).
    simpl. destruct (Z.ltb_spec 0 (podTotal sel r n)); [lia|done].
Qed.

Lemma classReturned_fresh p r :
  QOSClass p = "" → Resources p = Some r →
  classReturned (GetPodQOS p) = Some (classify (aggregate r)).
Proof. intros Hq Hr. by rewrite (GetPodQOS_fresh p r Hq Hr). Qed.

(** X14: a pod whose class is to be computed is BestEffort exactly
    when no container declares a cpu or memory request or limit above 0;
    entries under other names, and entries of 0 or below, do not keep a
    pod from being BestEffort. *)
Theorem BestEffort_iff_nothing_positive (p : pod)
    (r : PodResourceRequirements) :
  QOSClass p = "" →
  Resources p = Some r →
  classReturned (GetPodQOS p) = Some PodQOSBestEffort
  ↔ ∀ id c name v,
      Containers r !! id = Some c →
      name = ResourceCPU ∨ name = ResourceMemory →
      Requests c !! name = Some v ∨ Limits c !! name = Some v →
      v ≤ 0.
Proof.
  intros Hq Hr. rewrite (classReturned_fresh p r Hq Hr).
  assert (Some (classify (aggregate r)) = Some PodQOSBestEffort
          ↔ classify (aggregate r) = PodQOSBestEffort) as ->
    by (split; [by intros [= ->]|by intros ->]).
  rewrite classify_BestEffort.
  rewrite aggregate_requests_aggregated, aggregate_limits_aggregated.
  rewrite !aggregated_empty_iff. split.
  - intros [Hreq Hlim] id c name v Hc Hname Hv.
    destruct (Z.le_gt_cases v 0) as [|Hpos]; [done|]. exfalso.
    destruct Hv as [Hv|Hv].
    + specialize (Hreq name Hname).
      assert (0 < podTotal Requests r name)
        by (apply podTotal_pos; by exists id, c, v). lia.
    + specialize (Hlim name Hname).
      assert (0 < podTotal Limits r name)
        by (apply podTotal_pos; by exists id, c, v). lia.
  - intros H. split; intros n Hn.
    + destruct (Z.le_gt_cases (podTotal Requests r n) 0) as [|Hpos]; [done|].
      apply podTotal_pos in Hpos as (id & c & q & Hc & Hv & Hpos).
      specialize (H id c n q Hc Hn (or_introl Hv)). lia.
    + destruct (Z.le_gt_cases (podTotal Limits r n) 0) as [|Hpos]; [done|].
      apply podTotal_pos in Hpos as (id & c & q & Hc & Hv & Hpos).
      specialize (H id c n q Hc Hn (or_intror Hv)). lia.
Qed.

Lemma BestEffort_iff_nothing_positive_witness :
  classReturned (GetPodQOS (samplePod (Some zeroQuantityResources) ""))
  = Some PodQOSBestEffort
  ↔ ∀ id c name v,
      Containers zeroQuantityResources !! id = Some c →
      name = ResourceCPU ∨ name = ResourceMemory →
      Requests c !! name = Some v ∨ Limits c !! name = Some v →
      v ≤ 0.
Proof.
  apply (BestEffort_iff_nothing_positive
           (samplePod (Some zeroQuantityResources) "") zeroQuantityResources);
    reflexivity.
Defined.

Lemma classify_three st :
  classify st = PodQOSBestEffort ∨ classify st = PodQOSGuaranteed
  ∨ classify st = PodQOSBurstable.
Proof. unfold classify. repeat case_match; tauto. Qed.

(** X15: a pod classified Guaranteed has at least one container, and
    for cpu and for memory alike the sum of its positive limits is above 0
    and equals the sum of its positive requests. *)
Theorem Guaranteed_totals_match (p : pod) (r : PodResourceRequirements) :
  QOSClass p = "" →
  Resources p = Some r →
  classReturned (GetPodQOS p) = Some PodQOSGuaranteed →
  Containers r ≠ ∅
  ∧ ∀ name, name = ResourceCPU ∨ name = ResourceMemory →
      0 < podTotal Limits r name
      ∧ podTotal Requests r name = podTotal Limits r name.
Proof.
  intros Hq Hr. rewrite (classReturned_fresh p r Hq Hr). intros [= HG].
  assert (requests (aggregate r) ≠ ∅ ∨ limits (aggregate r) ≠ ∅) as Hne.
  { destruct (decide (requests (aggregate r) = ∅)) as [E1|]; [|by left].
    destruct (decide (limits (aggregate r) = ∅)) as [E2|]; [|by right].
    exfalso. assert (classify (aggregate r) = PodQOSBestEffort) as HB
      by (by apply classify_BestEffort).
    rewrite HG in HB. qos_distinct. }
  destruct (classify_Guaranteed (aggregate r) Hne) as [Hiff _].
  apply Hiff in HG as (Hall & Hmatch & Hsize).
  rewrite aggregate_isGuaranteed in Hall.
  assert (requests (aggregate r) = limits (aggregate r)) as Heq.
  { apply map_subseteq_size_eq; [|lia].
    apply map_subseteq_spec. exact Hmatch. }
  assert (∃ id c, Containers r !! id = Some c) as (id & c & Hc).
  { assert (∃ sel n, 0 < podTotal sel r n) as (sel & n & Hpos).
    { destruct Hne as [Hne|Hne]; apply map_choose in Hne as (n & q & Hn).
      - rewrite aggregate_requests in Hn.
        apply expectedEntry_Some in Hn as (_ & ? & ->). by exists Requests, n.
      - rewrite aggregate_limits in Hn.
        apply expectedEntry_Some in Hn as (_ & ? & ->). by exists Limits, n. }
    apply podTotal_pos in Hpos as (id & c & _ & Hc & _). by exists id, c. }
  split.
  { intros He. rewrite He, lookup_empty in Hc. done. }
  intros name Hname.
  assert (0 < podTotal Limits r name) as Hlim.
  { destruct (Hall id c Hc) as [(q & Hq1 & Hq2) (q' & Hq1' & Hq2')].
    apply podTotal_pos.
    destruct Hname as [-> | ->]; [by exists id, c, q|by exists id, c, q']. }
  split; [done|].
  pose proof (aggregate_requests r name) as Hrn.
  pose proof (aggregate_limits r name) as Hln.
  rewrite Heq, Hln in Hrn. unfold expectedEntry in Hrn.
  apply isSupported_spec in Hname. rewrite Hname in Hrn. simpl in Hrn.
  assert ((0 <? podTotal Limits r name) = true) as Hl by lia.
  rewrite Hl in Hrn.
  destruct (0 <? podTotal Requests r name); by simplify_eq.
Qed.

Lemma Guaranteed_totals_match_witness :
  podTotal Requests guaranteedResources ResourceMemory
  = podTotal Limits guaranteedResources ResourceMemory.
Proof.
  destruct (Guaranteed_totals_match (samplePod (Some guaranteedResources) "")
              guaranteedResources eq_refl eq_refl) as [_ H].
  - vm_compute. reflexivity.
  - apply (H ResourceMemory). by right.
Defined.

(** X16: limits alone do not make a pod Guaranteed: when no container
    has a cpu or memory request above 0 and some container has a cpu or
    memory limit above 0, the pod is Burstable, even if every container
    has both limits. *)
Theorem limits_without_requests_is_Burstable (p : pod)
    (r : PodResourceRequirements) :
  QOSClass p = "" →
  Resources p = Some r →
  (∀ id c name v, Containers r !! id = Some c →
     name = ResourceCPU ∨ name = ResourceMemory →
     Requests c !! name = Some v → v ≤ 0) →
  (∃ id c name v, Containers r !! id = Some c
     ∧ (name = ResourceCPU ∨ name = ResourceMemory)
     ∧ Limits c !! name = Some v ∧ 0 < v) →
  classReturned (GetPodQOS p) = Some PodQOSBurstable.
Proof.
  intros Hq Hr Hreq (id & c & name & v & Hc & Hname & Hv & Hpos).
  rewrite (classReturned_fresh p r Hq Hr). f_equal.
  assert (requests (aggregate r) = ∅) as Hre.
  { rewrite aggregate_requests_aggregated. apply aggregated_empty_iff.
    intros n Hn.
    destruct (Z.le_gt_cases (podTotal Requests r n) 0) as [|Hp]; [done|].
    apply podTotal_pos in Hp as (id' & c' & q & Hc' & Hq' & Hp).
    specialize (Hreq id' c' n q Hc' Hn Hq'). lia. }
  assert (limits (aggregate r) !! name = Some (podTotal Limits r name)
          ∧ 0 < podTotal Limits r name) as [Hle Hlp].
  { assert (0 < podTotal Limits r name)
      by (apply podTotal_pos; by exists id, c, v).
    split; [|done]. rewrite aggregate_limits. unfold expectedEntry.
    apply isSupported_spec in Hname. rewrite Hname. simpl.
    by assert ((0 <? podTotal Limits r name) = true) as -> by lia. }
  assert (limits (aggregate r) ≠ ∅) as Hne
    by (intros He; by rewrite He, lookup_empty in Hle).
  destruct (classify_Guaranteed (aggregate r) (or_intror Hne)) as [Hiff Hb].
  apply Hb. intros HG. apply Hiff in HG as (_ & _ & Hsize).
  rewrite Hre, map_size_empty in Hsize. symmetry in Hsize.
  by apply map_size_empty_iff in Hsize.
Qed.

Lemma limits_without_requests_is_Burstable_witness :
  classReturned (GetPodQOS (samplePod (Some limitsOnlyResources) ""))
  = Some PodQOSBurstable.
Proof.
  apply (limits_without_requests_is_Burstable
           (samplePod (Some limitsOnlyResources) "") limitsOnlyResources).
  - reflexivity.
  - reflexivity.
  - intros id c name v Hc Hname Hv. unfold limitsOnlyResources in Hc.
    simpl in Hc.
    apply lookup_insert_Some in Hc as [[_ <-]|[_ Hc]];
      [|by rewrite lookup_empty in Hc].
    simpl in Hv. by rewrite lookup_empty in Hv.
  - exists "c0", (sampleRequirements [("cpu", 100); ("memory", 64000)] []),
      ResourceCPU, 100.
    split; [reflexivity|]. split; [by left|]. split; [reflexivity|lia].
Defined.

Lemma containersTotal_fmap sel n (f : ResourceRequirements → ResourceRequirements)
    (cs : list (string * ResourceRequirements)) :
  (∀ id c, (id, c) ∈ cs →
     positivePart (sel (f c) !! n) = positivePart (sel c !! n)) →
  containersTotal sel n (prod_map id f <$> cs) = containersTotal sel n cs.
Proof.
  induction cs as [|[id c] cs IH]; [done|]. intros H.
  rewrite fmap_cons. unfold containersTotal. cbn [fold_right prod_map snd].
  f_equal.
  - apply (H id). apply elem_of_cons. by left.
  - apply IH. intros id' c' Hin. apply (H id'), elem_of_cons. by right.
Qed.

Lemma aggregate_eq r r' :
  (∀ n, n = ResourceCPU ∨ n = ResourceMemory →
     podTotal Requests r' n = podTotal Requests r n
     ∧ podTotal Limits r' n = podTotal Limits r n) →
  isGuaranteed (aggregate r') = isGuaranteed (aggregate r) →
  aggregate r' = aggregate r.
Proof.
  intros Htot Hg.
  assert (∀ sel n, (∀ n, n = ResourceCPU ∨ n = ResourceMemory →
                      podTotal sel r' n = podTotal sel r n) →
                   expectedEntry n (podTotal sel r' n)
                   = expectedEntry n (podTotal sel r n)) as Hexp.
  { intros sel n H. unfold expectedEntry.
    destruct (isSupportedQoSComputeResource n) eqn:Es; [|done].
    apply isSupported_spec in Es. by rewrite (H n Es). }
  pose proof (aggregate_requests r) as Hr.
  pose proof (aggregate_requests r') as Hr'.
  pose proof (aggregate_limits r) as Hl.
  pose proof (aggregate_limits r') as Hl'.
  destruct (aggregate r) as [rq lm g], (aggregate r') as [rq' lm' g'].
  simpl in *. f_equal; [| |done].
  - apply map_eq. intros n. rewrite Hr, Hr'. apply Hexp.
    intros k Hk. by apply Htot.
  - apply map_eq. intros n. rewrite Hl, Hl'. apply Hexp.
    intros k Hk. by apply Htot.
Qed.

(** X17: only cpu and memory quantities above 0 count: rewriting the
    containers of a model so that, for cpu and memory, every request and
    limit keeps its value or stays at or below 0 or absent, whatever
    happens under other resource names and to the init containers,
    leaves the class as it was. *)
Theorem class_ignores_uncounted_entries (p p' : pod)
    (r : PodResourceRequirements)
    (f : ResourceRequirements → ResourceRequirements)
    (init : gmap string bool) :
  QOSClass p = "" → QOSClass p' = "" →
  Resources p = Some r →
  Resources p' = Some (mkPodResourceRequirements init (f <$> Containers r)) →
  (∀ id c name, Containers r !! id = Some c →
     name = ResourceCPU ∨ name = ResourceMemory →
     positivePart (Requests (f c) !! name) = positivePart (Requests c !! name)
     ∧ positivePart (Limits (f c) !! name) = positivePart (Limits c !! name)) →
  classReturned (GetPodQOS p') = classReturned (GetPodQOS p).
Proof.
  intros Hq Hq' Hr Hr' Hsame.
  rewrite (classReturned_fresh p r Hq Hr), (classReturned_fresh p' _ Hq' Hr').
  f_equal. f_equal. apply aggregate_eq.
  - intros n Hn. unfold podTotal. simpl. rewrite map_to_list_fmap.
    split; apply containersTotal_fmap; intros id c Hin;
      apply elem_of_map_to_list in Hin; by apply (Hsame id c n Hin Hn).
  - apply eq_true_iff_eq. rewrite !aggregate_isGuaranteed. simpl.
    assert (∀ c id, Containers r !! id = Some c →
              (hasPositiveLimit (f c) ResourceCPU
               ∧ hasPositiveLimit (f c) ResourceMemory)
              ↔ (hasPositiveLimit c ResourceCPU
                 ∧ hasPositiveLimit c ResourceMemory)) as Hcomp.
    { intros c id Hc. unfold hasPositiveLimit.
      rewrite <- !positivePart_pos.
      destruct (Hsame id c ResourceCPU Hc (or_introl eq_refl)) as [_ ->].
      destruct (Hsame id c ResourceMemory Hc (or_intror eq_refl)) as [_ ->].
      done. }
    split.
    + intros H id c Hc. apply (Hcomp c id Hc). apply (H id).
      by rewrite lookup_fmap, Hc.
    + intros H id c' Hc'. rewrite lookup_fmap in Hc'.
      destruct (Containers r !! id) as [c|] eqn:Hc; [|done].
      simpl in Hc'. injection Hc' as <-. apply (Hcomp c id Hc). by apply (H id).
Qed.

Lemma class_ignores_uncounted_entries_witness :
  classReturned
    (GetPodQOS
       (samplePod
          (Some (mkPodResourceRequirements {[ "init0" := true ]}
                   (withHugepages <$> Containers guaranteedResources))) ""))
  = classReturned (GetPodQOS (samplePod (Some guaranteedResources) "")).
Proof.
  apply (class_ignores_uncounted_entries
           (samplePod (Some guaranteedResources) "") _ guaranteedResources
           withHugepages {[ "init0" := true ]});
    try reflexivity.
  intros id c name Hc Hname. split; [reflexivity|].
  unfold withHugepages. simpl. rewrite lookup_insert_ne; [done|].
  destruct Hname as [-> | ->]; discriminate.
Defined.

(** X18: the class does not depend on the order in which [range] goes
    through a map: the loop over the containers, the loops over the
    requests and over the limits of a container, and the loop comparing
    requests with limits (with its early exit) give the same result on any
    ordering of the same entries. *)
Theorem classification_order_irrelevant (r : PodResourceRequirements)
    (cs : list (string * ResourceRequirements))
    (m : gmap string Z) (entries : list (string * Z))
    (acc lim : gmap string Z) (found : gset string) :
  cs ≡ₚ map_to_list (Containers r) →
  entries ≡ₚ map_to_list m →
  fold_left (λ a kv, processContainer a kv.1 kv.2) cs (mkQosState ∅ ∅ true)
  = aggregate r
  ∧ fold_left (λ a kv, processRequest a kv.1 kv.2) entries acc
    = range m processRequest acc
  ∧ fold_left (λ a kv, processLimit a kv.1 kv.2) entries (acc, found)
    = range m processLimit (acc, found)
  ∧ requestsMatchLimits entries lim
    = requestsMatchLimits (map_to_list m) lim.
Proof.
  intros Hcs Hentries. unfold aggregate, range.
  split; [by apply containers_loop_order|].
  split; [by apply requests_loop_order|].
  split; [by apply limits_loop_order|].
  apply eq_true_iff_eq. rewrite !requestsMatchLimits_spec.
  split; intros H n q Hin; apply H; [by rewrite Hentries|by rewrite <- Hentries].
Qed.

Lemma classification_order_irrelevant_witness :
  fold_left (λ a kv, processContainer a kv.1 kv.2)
    (reverse (map_to_list (Containers mixedResources)))
    (mkQosState ∅ ∅ true)
  = aggregate mixedResources.
Proof.
  apply (classification_order_irrelevant mixedResources
           (reverse (map_to_list (Containers mixedResources)))
           ∅ [] ∅ ∅ ∅).
  - apply reverse_Permutation.
  - by rewrite map_to_list_empty.
Defined.

(** ** A stored class and later construction *)

(** X19: the constructors never reset the stored class: on a pod that
    already has one, [GetPodQOS] after either constructor, successful or
    not and whatever resource annotation the message carries, still
    returns that class. *)
Theorem stored_class_survives_construction
    (Unmarshal : string → PodResourceRequirements →
                 PodResourceRequirements * option error)
    (c : cache.t) (p : pod) (req : cri.RunPodSandboxRequest.t)
    (sandbox : cri.PodSandbox.t) :
  QOSClass p ≠ "" →
  classReturned (GetPodQOS (fromRunRequest Unmarshal c p req).1.2)
  = Some (QOSClass p)
  ∧ classReturned (GetPodQOS (fromListResponse Unmarshal c p sandbox).1.2)
    = Some (QOSClass p).
Proof.
  intros Hq.
  assert (∀ q, QOSClass q = QOSClass p →
               classReturned (GetPodQOS q) = Some (QOSClass p)) as Hkeep.
  { intros q Hqq. rewrite GetPodQOS_memo by (by rewrite Hqq).
    simpl. by rewrite Hqq. }
  split; apply Hkeep.
  - destruct (runRequest_complete_or_not req) as [(cfg & meta & Hc & Hm)|Hno].
    + rewrite (fromRunRequest_complete Unmarshal c p req cfg meta Hc Hm),
        finishConstruction_eq. reflexivity.
    + by destruct (fromRunRequest_incomplete Unmarshal c p req Hno)
        as [format ->].
  - destruct (cri.PodSandbox.Metadata sandbox) as [meta|] eqn:Hm.
    + rewrite (fromListResponse_complete Unmarshal c p sandbox meta Hm),
        finishConstruction_eq. reflexivity.
    + unfold fromListResponse. by rewrite Hm.
Qed.

Lemma stored_class_survives_construction_witness :
  classReturned
    (GetPodQOS
       (fromListResponse jsonUnmarshal sampleCache
          (samplePod (Some zeroResources) PodQOSBestEffort)
          (sampleSandbox 0
             {[ KeyResourceAnnotation := guaranteedAnnotation ]})).1.2)
  = Some PodQOSBestEffort.
Proof.
  apply (stored_class_survives_construction jsonUnmarshal sampleCache
           (samplePod (Some zeroResources) PodQOSBestEffort)
           (sampleRequest ∅)).
  discriminate.
Defined.
